(** * github_stats.py: commit collection, aggregation and productivity analysis

    A shallow embedding of [src/github_stats.py] (class [GitHubStats]) and the
    properties of its three pipeline stages.

    Modelling conventions.
    - Python [int] is [Z].  The [float] values of the report are carried as
      the exact rationals ([Qc]) of the expressions that compute them;
      [float('inf')] is the separate constructor [Inf].  Where a statement
      depends on the binary64 rounding of such an expression, the expression
      is evaluated on primitive floats (section "Binary64 evaluation").
    - A Python [dict] (insertion ordered) is an association list whose keys
      are pairwise distinct, in insertion order.
    - [requests.get] is a function of the request; every request that is
      issued is recorded in a log, so that "no network call" is observable.
    - [while True] loops take a fuel argument; running out of fuel is the
      outcome [None], distinct from returning and from raising.
    - A commit of the listing endpoint is taken after decoding: the values
      the loop of [get_commit_stats] computes on its first lines ([sha],
      [repo_name], [commit_date]) are the fields of [commit]. *)

From Stdlib Require Import ZArith List String Bool Lia QArith Qcanon.
From Stdlib Require Import Permutation Sorted.
Import ListNotations.

Local Open Scope Z_scope.

(** ** Numbers *)

(** A Python number as the analyzer produces it: a finite value, or the
    sentinel [float('inf')]. *)
Inductive number : Type :=
| Num (q : Qc)
| Inf.

Definition Z2Qc (z : Z) : Qc := Q2Qc (inject_Z z).

(** ** Dates and times ([datetime.datetime], naive, second precision) *)

Record datetime : Type := mkDatetime {
  year : Z; month : Z; day : Z;
  hour : Z; minute : Z; second : Z
}.

(** A day key: the [strftime('%Y-%m-%d')] image of a [datetime].  The string
    is determined by, and determines, the (year, month, day) triple, which is
    what the key is here; [strptime(day, '%Y-%m-%d')] gives the triple back. *)
Definition day_key : Type := (Z * Z * Z)%type.

Definition strftime_Ymd (d : datetime) : day_key := (year d, month d, day d).

Definition day_key_eqb (a b : day_key) : bool :=
  let '(y1, m1, d1) := a in
  let '(y2, m2, d2) := b in
  (y1 =? y2) && (m1 =? m2) && (d1 =? d2).

(** CPython's [datetime] arithmetic (Lib/_pydatetime.py): [_is_leap],
    [_days_before_year], [_days_before_month], [_ymd2ord], [weekday]. *)
Definition is_leap (y : Z) : bool :=
  (y mod 4 =? 0) && (negb (y mod 100 =? 0) || (y mod 400 =? 0)).

Definition days_before_year (y : Z) : Z :=
  let y' := y - 1 in
  y' * 365 + y' / 4 - y' / 100 + y' / 400.

Definition days_before_month (y m : Z) : Z :=
  let base :=
    match m with
    | 1 => 0 | 2 => 31 | 3 => 59 | 4 => 90 | 5 => 120 | 6 => 151
    | 7 => 181 | 8 => 212 | 9 => 243 | 10 => 273 | 11 => 304 | 12 => 334
    | _ => 0
    end in
  base + (if (2 <? m) && is_leap y then 1 else 0).

Definition ymd2ord (y m d : Z) : Z :=
  days_before_year y + days_before_month y m + d.

(** [date.weekday()]: Monday is 0, Sunday is 6. *)
Definition weekday (k : day_key) : Z :=
  let '(y, m, d) := k in (ymd2ord y m d + 6) mod 7.

(** [(a - b).total_seconds()] goes through the number of seconds since the
    start of ordinal day 0. *)
Definition to_seconds (t : datetime) : Z :=
  ymd2ord (year t) (month t) (day t) * 86400
  + hour t * 3600 + minute t * 60 + second t.

Definition total_seconds_between (a b : datetime) : Z :=
  to_seconds a - to_seconds b.

(** [datetime(year, month, 1)]: the constructor's range check, for day 1. *)
Definition datetime_valid_ym (y m : Z) : bool :=
  (1 <=? y) && (y <=? 9999) && (1 <=? m) && (m <=? 12).

(** The constructor first converts its arguments to C [int]s: an argument
    outside [-2^31, 2^31 - 1] is an [OverflowError], whatever the others. *)
Definition fits_c_int (z : Z) : bool :=
  (-2147483648 <=? z) && (z <=? 2147483647).

(** ** Ordered dictionaries with a default factory ([defaultdict]) *)

Section Dict.
Context {K V : Type}.
Variable eqb : K -> K -> bool.
Variable default : V.

Definition dict : Type := list (K * V).

(** [d[k].field += x] on a [defaultdict]: the entry is created from the
    default factory at the end of the dictionary when [k] is absent, then
    updated in place. *)
Fixpoint dict_modify (k : K) (f : V -> V) (d : dict) : dict :=
  match d with
  | [] => [(k, f default)]
  | (k', v) :: r =>
      if eqb k k' then (k', f v) :: r else (k', v) :: dict_modify k f r
  end.
End Dict.

Arguments dict : clear implicits.

(** ** Buckets *)

(** The value of [repo_stats] and [daily_stats]:
    [{'additions': _, 'deletions': _, 'commits': _}]. *)
Record bucket : Type := mkBucket {
  additions : Z;
  deletions : Z;
  commits : Z
}.

Definition empty_bucket : bucket := mkBucket 0 0 0.

Definition add_additions (x : Z) (b : bucket) : bucket :=
  mkBucket (additions b + x) (deletions b) (commits b).
Definition add_deletions (x : Z) (b : bucket) : bucket :=
  mkBucket (additions b) (deletions b + x) (commits b).
Definition add_commits (x : Z) (b : bucket) : bucket :=
  mkBucket (additions b) (deletions b) (commits b + x).

Definition repo_modify := @dict_modify string bucket String.eqb empty_bucket.
Definition day_modify := @dict_modify day_key bucket day_key_eqb empty_bucket.

(** ** Results and exceptions *)

(** The exceptions the code can raise: [raise Exception(msg)] of
    [get_org_repos], [ValueError] and [OverflowError] of the [datetime] constructor,
    [ZeroDivisionError] of [/] and [StatisticsError] of [statistics.mean]. *)
Inductive exn : Type :=
| Exception (msg : string)
| ValueError
| OverflowError
| ZeroDivisionError
| StatisticsError.

Inductive result (A : Type) : Type :=
| Ok (a : A)
| Raise (e : exn).

Arguments Ok {A} a.
Arguments Raise {A} e.

Definition rbind {A B : Type} (r : result A) (k : A -> result B) : result B :=
  match r with
  | Ok a => k a
  | Raise e => Raise e
  end.

(** Python's true division [a / b]: [ZeroDivisionError] for a zero divisor,
    else the quotient, taken exactly (before its rounding to binary64). *)
Definition truediv (a b : Qc) : result Qc :=
  if Qc_eq_dec b 0%Qc then Raise ZeroDivisionError else Ok (a / b)%Qc.

Definition Qcltb (a b : Qc) : bool :=
  match (a ?= b)%Qc with Lt => true | _ => false end.

Definition len {A : Type} (l : list A) : Z := Z.of_nat (List.length l).

(** ** The network *)

Record commit : Type := mkCommit {
  sha : string;
  repo_name : string;
  commit_date : datetime
}.

Inductive request : Type :=
| ListRepos (org : string) (page : Z)
| ListCommits (org repo author : string) (since until : datetime) (page : Z)
| GetCommit (org repo sha : string).

Record response (A : Type) : Type := mkResponse {
  status_code : Z;
  json : A;
  text : string
}.

Arguments mkResponse {A} _ _ _.
Arguments status_code {A} _.
Arguments json {A} _.
Arguments text {A} _.

(** A computation that talks to the network: it extends the log of issued
    requests and returns a value, raises, or runs out of fuel ([None]). *)
Definition M (A : Type) : Type :=
  list request -> option (result A) * list request.

Definition ret {A : Type} (a : A) : M A := fun log => (Some (Ok a), log).

Definition raise {A : Type} (e : exn) : M A := fun log => (Some (Raise e), log).

Definition out_of_fuel {A : Type} : M A := fun log => (None, log).

Definition bind {A B : Type} (m : M A) (k : A -> M B) : M B :=
  fun log =>
    match m log with
    | (Some (Ok a), log') => k a log'
    | (Some (Raise e), log') => (Some (Raise e), log')
    | (None, log') => (None, log')
    end.

Declare Scope net_scope.
Delimit Scope net_scope with net.
Notation "x <- m ;; k" := (bind m (fun x => k))
  (at level 100, m at next level, right associativity) : net_scope.

Declare Scope result_scope.
Delimit Scope result_scope with res.
Notation "x <- r ;; k" := (rbind r (fun x => k))
  (at level 100, r at next level, right associativity) : result_scope.

(** ** Snapshots and reports *)

(** What [get_commit_stats] returns, [(total_additions, total_deletions,
    {'repo_stats': _, 'daily_stats': _, 'commit_times': _})], and what
    [main] passes on to [analyze_productivity],
    [{'additions': _, 'deletions': _, **stats}]: the same five values. *)
Record stats : Type := mkStats {
  total_additions : Z;
  total_deletions : Z;
  repo_stats : dict string bucket;
  daily_stats : dict day_key bucket;
  commit_times : list datetime
}.

(** The dictionary [analyze_productivity] returns. *)
Record report : Type := mkReport {
  total_change_percentage : number;
  additions_change_percentage : number;
  deletions_change_percentage : number;
  daily_average_changes : Qc;
  daily_average_change_percentage : number;
  weekend_activity : Z;
  weekday_activity : Z;
  weekend_percentage : Qc;
  average_commit_interval_minutes : Qc;
  commits_per_day : Qc;
  most_active_repositories : list (string * Z)
}.

(** ** class GitHubStats *)

Section GitHubStats.
(** The three endpoints, as functions of the request:
    [GET /orgs/{org}/repos] (the decoded body is the list of the ['name']
    fields), [GET /repos/{org}/{repo}/commits] and
    [GET /repos/{org}/{repo}/commits/{sha}] (the decoded body is
    [(stats.additions, stats.deletions)]). *)
Variable orgs_repos : string -> Z -> response (list string).
Variable repos_commits :
  string -> string -> string -> datetime -> datetime -> Z ->
  response (list commit).
Variable repos_commit : string -> string -> string -> response (Z * Z).

Local Open Scope net_scope.

(** [requests.get(...)], one definition per endpoint. *)
Definition get_repos_page (org : string) (page : Z)
  : M (response (list string)) :=
  fun log => (Some (Ok (orgs_repos org page)), log ++ [ListRepos org page]).

Definition get_commits_page (org repo username : string)
    (start_date end_date : datetime) (page : Z)
  : M (response (list commit)) :=
  fun log =>
    (Some (Ok (repos_commits org repo username start_date end_date page)),
     log ++ [ListCommits org repo username start_date end_date page]).

Definition get_commit_detail (org repo_name commit_sha : string)
  : M (response (Z * Z)) :=
  fun log =>
    (Some (Ok (repos_commit org repo_name commit_sha)),
     log ++ [GetCommit org repo_name commit_sha]).

(** The [while True] loop of [get_org_repos]. *)
Fixpoint get_org_repos_loop (fuel : nat) (org : string) (page : Z)
    (repos : list string) : M (list string) :=
  match fuel with
  | O => out_of_fuel
  | S fuel' =>
      response <- get_repos_page org page ;;
      if negb (status_code response =? 200) then
        raise (Exception ("Failed to fetch repos: " ++ text response))
      else
        match json response with
        | [] => ret repos
        | data => get_org_repos_loop fuel' org (page + 1) (repos ++ data)
        end
  end.

Definition get_org_repos (fuel : nat) (org : string) : M (list string) :=
  get_org_repos_loop fuel org 1 [].

(** The inner [while True] loop of [get_user_commits], for one [repo]. *)
Fixpoint get_user_commits_pages (fuel : nat) (org repo username : string)
    (start_date end_date : datetime) (page : Z) (all_commits : list commit)
  : M (list commit) :=
  match fuel with
  | O => out_of_fuel
  | S fuel' =>
      response <-
        get_commits_page org repo username start_date end_date page ;;
      if negb (status_code response =? 200) then ret all_commits
      else
        match json response with
        | [] => ret all_commits
        | data =>
            get_user_commits_pages fuel' org repo username
              start_date end_date (page + 1) (all_commits ++ data)
        end
  end.

(** The [for repo in repos] loop of [get_user_commits]. *)
Fixpoint get_user_commits_repos (fuel : nat) (org username : string)
    (start_date end_date : datetime) (repos : list string)
    (all_commits : list commit) : M (list commit) :=
  match repos with
  | [] => ret all_commits
  | repo :: repos' =>
      all_commits' <-
        get_user_commits_pages fuel org repo username
          start_date end_date 1 all_commits ;;
      get_user_commits_repos fuel org username start_date end_date
        repos' all_commits'
  end.

Definition get_user_commits (fuel : nat) (org username : string)
    (start_date end_date : datetime) : M (list commit) :=
  repos <- get_org_repos fuel org ;;
  get_user_commits_repos fuel org username start_date end_date repos [].

(** [datetime(year, month, 1)]. *)
Definition datetime_first_of_month (y m : Z) : M datetime :=
  if fits_c_int y && fits_c_int m then
    if datetime_valid_ym y m then ret (mkDatetime y m 1 0 0 0)
    else raise ValueError
  else raise OverflowError.

Definition initial_stats : stats := mkStats 0 0 [] [] [].

(** One iteration of the [for i, commit in enumerate(commits, 1)] loop of
    [get_commit_stats], given the response of the detail request. *)
Definition process_commit (st : stats) (commit : commit)
    (response : response (Z * Z)) : stats :=
  let repo_name := repo_name commit in
  let commit_date := commit_date commit in
  let commit_times := commit_times st ++ [commit_date] in
  if status_code response =? 200 then
    let '(additions, deletions) := json response in
    let total_additions := total_additions st + additions in
    let total_deletions := total_deletions st + deletions in
    let repo_stats := repo_modify repo_name (add_additions additions)
                        (repo_stats st) in
    let repo_stats := repo_modify repo_name (add_deletions deletions)
                        repo_stats in
    let repo_stats := repo_modify repo_name (add_commits 1) repo_stats in
    let day_key := strftime_Ymd commit_date in
    let daily_stats := day_modify day_key (add_additions additions)
                         (daily_stats st) in
    let daily_stats := day_modify day_key (add_deletions deletions)
                         daily_stats in
    let daily_stats := day_modify day_key (add_commits 1) daily_stats in
    mkStats total_additions total_deletions repo_stats daily_stats
      commit_times
  else
    mkStats (total_additions st) (total_deletions st) (repo_stats st)
      (daily_stats st) commit_times.

Fixpoint get_commit_stats_loop (org : string) (commits : list commit)
    (st : stats) : M stats :=
  match commits with
  | [] => ret st
  | commit :: commits' =>
      response <- get_commit_detail org (repo_name commit) (sha commit) ;;
      get_commit_stats_loop org commits' (process_commit st commit response)
  end.

Definition get_commit_stats (fuel : nat) (org username : string)
    (year month : Z) : M stats :=
  start_date <- datetime_first_of_month year month ;;
  end_date <- (if month =? 12 then datetime_first_of_month (year + 1) 1
               else datetime_first_of_month year (month + 1)) ;;
  commits <- get_user_commits fuel org username start_date end_date ;;
  get_commit_stats_loop org commits initial_stats.
End GitHubStats.

(** ** analyze_productivity *)

Definition Zsum (l : list Z) : Z := fold_right Z.add 0 l.

(** [statistics.mean(data)]. *)
Definition mean (data : list Z) : result Qc :=
  match data with
  | [] => Raise StatisticsError
  | _ => truediv (Z2Qc (Zsum data)) (Z2Qc (len data))
  end.

(** [[(commit_times[i] - commit_times[i-1]).total_seconds()
      for i in range(1, len(commit_times))]]. *)
Definition commit_intervals (commit_times : list datetime) : list Z :=
  let dflt := mkDatetime 0 0 0 0 0 0 in
  map (fun i => total_seconds_between (nth i commit_times dflt)
                                      (nth (i - 1) commit_times dflt))
      (seq 1 (List.length commit_times - 1)).

(** [list.sort(key=lambda x: x[1], reverse=True)]: Python's sort is stable,
    and with [reverse=True] elements with equal keys keep their original
    order.  It is modelled by a stable insertion sort in descending order of
    the second component. *)
Fixpoint insert_desc (x : string * Z) (l : list (string * Z))
  : list (string * Z) :=
  match l with
  | [] => [x]
  | y :: r => if snd y <? snd x then x :: y :: r else y :: insert_desc x r
  end.

Definition sort_desc (l : list (string * Z)) : list (string * Z) :=
  fold_left (fun acc x => insert_desc x acc) l [].

(** The body of the [for day, stats in current_stats['daily_stats'].items()]
    loop, on the pair [(weekend_changes, weekday_changes)]. *)
Definition weekend_step (acc : Z * Z) (item : day_key * bucket) : Z * Z :=
  let '(weekend_changes, weekday_changes) := acc in
  let '(day, stats) := item in
  if 5 <=? weekday day then
    (weekend_changes + (additions stats + deletions stats), weekday_changes)
  else
    (weekend_changes, weekday_changes + (additions stats + deletions stats)).

Definition is_empty {A : Type} (l : list A) : bool :=
  match l with [] => true | _ => false end.

Local Open Scope result_scope.

Definition analyze_productivity (current_stats previous_stats : stats)
  : result report :=
  let current_total :=
    total_additions current_stats + total_deletions current_stats in
  let previous_total :=
    total_additions previous_stats + total_deletions previous_stats in
  (* Calculate percentage changes *)
  total_change_pct <-
    (if 0 <? previous_total then
       q <- truediv (Z2Qc (current_total - previous_total))
                    (Z2Qc previous_total) ;;
       Ok (Num (q * Z2Qc 100)%Qc)
     else Ok Inf) ;;
  additions_change_pct <-
    (if 0 <? total_additions previous_stats then
       q <- truediv (Z2Qc (total_additions current_stats
                           - total_additions previous_stats))
                    (Z2Qc (total_additions previous_stats)) ;;
       Ok (Num (q * Z2Qc 100)%Qc)
     else Ok Inf) ;;
  deletions_change_pct <-
    (if 0 <? total_deletions previous_stats then
       q <- truediv (Z2Qc (total_deletions current_stats
                           - total_deletions previous_stats))
                    (Z2Qc (total_deletions previous_stats)) ;;
       Ok (Num (q * Z2Qc 100)%Qc)
     else Ok Inf) ;;
  (* Calculate daily averages *)
  current_daily_avg <-
    (if negb (is_empty (daily_stats current_stats)) then
       truediv (Z2Qc current_total) (Z2Qc (len (daily_stats current_stats)))
     else Ok (Z2Qc 0)) ;;
  previous_daily_avg <-
    (if negb (is_empty (daily_stats previous_stats)) then
       truediv (Z2Qc previous_total)
               (Z2Qc (len (daily_stats previous_stats)))
     else Ok (Z2Qc 0)) ;;
  (* Calculate weekend vs weekday activity *)
  let '(weekend_changes, weekday_changes) :=
    fold_left weekend_step (daily_stats current_stats) (0, 0) in
  (* Calculate commit frequency *)
  let commit_times := commit_times current_stats in
  cadence <-
    (if 1 <? len commit_times then
       avg_commit_interval <- mean (commit_intervals commit_times) ;;
       commits_per_day <-
         truediv (Z2Qc (len commit_times))
                 (Z2Qc (len (daily_stats current_stats))) ;;
       Ok (avg_commit_interval, commits_per_day)
     else Ok (Z2Qc 0, Z2Qc 0)) ;;
  let '(avg_commit_interval, commits_per_day) := cadence in
  (* Find most active repositories *)
  let repo_activity :=
    map (fun '(repo, stats) => (repo, additions stats + deletions stats))
        (repo_stats current_stats) in
  let repo_activity := sort_desc repo_activity in
  daily_average_change_pct <-
    (if Qcltb (Z2Qc 0) previous_daily_avg then
       q <- truediv (current_daily_avg - previous_daily_avg)%Qc
                    previous_daily_avg ;;
       Ok (Num (q * Z2Qc 100)%Qc)
     else Ok Inf) ;;
  weekend_pct <-
    (if 0 <? weekend_changes + weekday_changes then
       q <- truediv (Z2Qc weekend_changes)
                    (Z2Qc (weekend_changes + weekday_changes)) ;;
       Ok (q * Z2Qc 100)%Qc
     else Ok (Z2Qc 0)) ;;
  interval_minutes <- truediv avg_commit_interval (Z2Qc 60) ;;
  Ok {| total_change_percentage := total_change_pct;
        additions_change_percentage := additions_change_pct;
        deletions_change_percentage := deletions_change_pct;
        daily_average_changes := current_daily_avg;
        daily_average_change_percentage := daily_average_change_pct;
        weekend_activity := weekend_changes;
        weekday_activity := weekday_changes;
        weekend_percentage := weekend_pct;
        average_commit_interval_minutes := interval_minutes;
        commits_per_day := commits_per_day;
        most_active_repositories := firstn 5 repo_activity |}.

(** ** Vocabulary of the statements *)

(** The sum of one field over the buckets of a dictionary. *)
Definition bucket_total {K : Type} (field : bucket -> Z)
    (d : dict K bucket) : Z :=
  Zsum (map (fun kv => field (snd kv)) d).

Section Detail.
Variable repos_commit : string -> string -> string -> response (Z * Z).
Variable org : string.

(** The response of the detail lookup of a commit, and whether it is a
    success (status 200). *)
Definition detail (c : commit) : response (Z * Z) :=
  repos_commit org (repo_name c) (sha c).

Definition detailed (c : commit) : bool := status_code (detail c) =? 200.

Definition commit_additions (c : commit) : Z := fst (json (detail c)).
Definition commit_deletions (c : commit) : Z := snd (json (detail c)).

(** The requests the aggregation loop issues for a commit sequence. *)
Definition detail_requests (cs : list commit) : list request :=
  map (fun c => GetCommit org (repo_name c) (sha c)) cs.

(** The aggregation loop without the log. *)
Definition aggregate (cs : list commit) (st : stats) : stats :=
  fold_left (fun st c => process_commit st c (detail c)) cs st.
End Detail.

(** The analyzer's quantities in closed form. *)
Definition total_changes (st : stats) : Z :=
  total_additions st + total_deletions st.

Definition daily_average (st : stats) : Qc :=
  if is_empty (daily_stats st) then Z2Qc 0
  else (Z2Qc (total_changes st) / Z2Qc (len (daily_stats st)))%Qc.

Definition is_weekend (k : day_key) : bool :=
  (weekday k =? 5) || (weekday k =? 6).

Definition is_weekday (k : day_key) : bool :=
  (0 <=? weekday k) && (weekday k <=? 4).

(** The additions plus deletions of the day buckets whose key satisfies
    [p]. *)
Definition activity (p : day_key -> bool) (d : dict day_key bucket) : Z :=
  Zsum (map (fun kv => additions (snd kv) + deletions (snd kv))
            (filter (fun kv => p (fst kv)) d)).

Definition repo_activity (st : stats) : list (string * Z) :=
  map (fun '(repo, stats) => (repo, additions stats + deletions stats))
      (repo_stats st).

(** The order of the ranking, and the entries with a given total. *)
Definition at_least_as_active (x y : string * Z) : Prop := snd y <= snd x.

Definition has_total (k : Z) (x : string * Z) : bool := snd x =? k.

(** The cadence division [len(commit_times) / len(daily_stats)] is either
    not reached or has a non-zero denominator. *)
Definition cadence_defined (st : stats) : Prop :=
  len (commit_times st) <= 1 \/ daily_stats st <> [].

(** The percentage change as the specification words it: the quotient when
    the previous value is positive, the infinite sentinel when it is zero
    and the current value is not. *)
Definition pct_change_spec (curr prev : Qc) (v : number) : Prop :=
  ((0 < prev)%Qc -> v = Num ((curr - prev) / prev * Z2Qc 100)%Qc)
  /\ (prev = 0%Qc -> curr <> 0%Qc -> v = Inf).

(** The two instances the specification singles out: equal positive values
    give 0, a positive value against a zero baseline gives the sentinel. *)
Definition pct_change_instances (curr prev : Qc) (v : number) : Prop :=
  ((0 < curr)%Qc -> prev = curr -> v = Num 0%Qc)
  /\ ((0 < curr)%Qc -> prev = 0%Qc -> v = Inf).

(** A paginated listing delivers [n] non-empty pages from page [first] on
    and then ends: the following page fails or is empty. *)
Definition listing_ends {A : Type} (page_of : Z -> response (list A))
    (first : Z) (n : nat) : Prop :=
  (forall i, (i < n)%nat ->
     status_code (page_of (first + Z.of_nat i)) = 200
     /\ json (page_of (first + Z.of_nat i)) <> [])
  /\ (status_code (page_of (first + Z.of_nat n)) <> 200
      \/ json (page_of (first + Z.of_nat n)) = []).

(** The items of the pages [first], ..., [first + n - 1], in page order. *)
Definition pages_concat {A : Type} (page_of : Z -> response (list A))
    (first : Z) (n : nat) : list A :=
  flat_map (fun i => json (page_of (first + Z.of_nat i))) (seq 0 n).

(** A computation only ever adds requests at the end of the log. *)
Definition appends {A : Type} (m : M A) : Prop :=
  forall log, exists rest, snd (m log) = log ++ rest.

(** ** Sample inputs *)

Local Open Scope string_scope.

(** A detail endpoint that fails every lookup. *)
Definition not_found (_ _ _ : string) : response (Z * Z) :=
  mkResponse 404 (0, 0) "Not Found".

Definition march_1st_10h00 : datetime := mkDatetime 2024 3 1 10 0 0.
Definition march_1st_10h01 : datetime := mkDatetime 2024 3 1 10 1 0.
Definition march_1st_10h03 : datetime := mkDatetime 2024 3 1 10 3 0.

Definition commit_a1 : commit := mkCommit "a1b2c3d4" "repoA" march_1st_10h00.
Definition commit_a2 : commit := mkCommit "e5f6a7b8" "repoA" march_1st_10h01.

(** 2024-03-01 (a Friday) with three commits at t, t+60s and t+180s. *)
Definition cadence_stats : stats :=
  mkStats 16 7
    [("repoA", mkBucket 16 7 3)]
    [((2024, 3, 1), mkBucket 16 7 3)]
    [march_1st_10h00; march_1st_10h01; march_1st_10h03].

(** The month boundary 2024-03-01T00:00:00 and the two periods around it. *)
Definition feb_1st : datetime := mkDatetime 2024 2 1 0 0 0.
Definition march_1st : datetime := mkDatetime 2024 3 1 0 0 0.
Definition april_1st : datetime := mkDatetime 2024 4 1 0 0 0.

Definition boundary_commit : commit :=
  mkCommit "0f0f0f0f" "repoA" march_1st.

(** An organization with the single repository [repoA]. *)
Definition one_repo (_ : string) (page : Z) : response (list string) :=
  if (page =? 1)%Z then mkResponse 200 ["repoA"] "" else mkResponse 200 [] "".

Definition datetime_leb (a b : datetime) : bool :=
  (to_seconds a <=? to_seconds b)%Z.

(** A commit-list endpoint that holds [boundary_commit] and treats both
    [since] and [until] as inclusive bounds. *)
Definition inclusive_commits (_ _ _ : string) (since until : datetime)
    (page : Z) : response (list commit) :=
  if (page =? 1)%Z && datetime_leb since (commit_date boundary_commit)
     && datetime_leb (commit_date boundary_commit) until
  then mkResponse 200 [boundary_commit] ""
  else mkResponse 200 [] "".

(** The same store behind an endpoint whose [until] is exclusive. *)
Definition exclusive_commits (_ _ _ : string) (since until : datetime)
    (page : Z) : response (list commit) :=
  if (page =? 1)%Z && datetime_leb since (commit_date boundary_commit)
     && negb (datetime_leb until (commit_date boundary_commit))
  then mkResponse 200 [boundary_commit] ""
  else mkResponse 200 [] "".

Local Close Scope string_scope.

(** ** Binary64 evaluation *)

From Stdlib Require Import PrimFloat.

(** The [float] of a Python [int]; exact below 2^53, where every step of the
    doubling is exact. *)
Fixpoint float_of_pos (p : positive) : float :=
  match p with
  | xH => 1%float
  | xO q => (2 * float_of_pos q)%float
  | xI q => (2 * float_of_pos q + 1)%float
  end.

Definition float_of_Z (z : Z) : float :=
  match z with
  | Z0 => 0%float
  | Zpos p => float_of_pos p
  | Zneg p => (- float_of_pos p)%float
  end.

(** The expression of ['weekend_percentage'] as Python evaluates it, in
    binary64: [weekend_changes / (weekend_changes + weekday_changes) * 100]
    under its guard, for operands below 2^53. *)
Definition weekend_percentage_binary64 (weekend_changes weekday_changes : Z)
  : float :=
  if 0 <? weekend_changes + weekday_changes then
    (float_of_Z weekend_changes
     / float_of_Z (weekend_changes + weekday_changes) * 100)%float
  else 0%float.

(** The weekday percentage of the specification,
    [weekday / (weekend + weekday) * 100], in binary64. *)
Definition weekday_percentage_binary64 (weekend_changes weekday_changes : Z)
  : float :=
  (float_of_Z weekday_changes
   / float_of_Z (weekend_changes + weekday_changes) * 100)%float.

(** One change on Saturday 2024-03-02 and two on Monday 2024-03-04. *)
Definition weekend_one_weekday_two : stats :=
  mkStats 3 0
    [("repoA"%string, mkBucket 3 0 2)]
    [((2024, 3, 2), mkBucket 1 0 1); ((2024, 3, 4), mkBucket 2 0 1)]
    [mkDatetime 2024 3 2 9 0 0; mkDatetime 2024 3 4 9 0 0].

(** ** main *)

(** [d.get(k)] on an ordered dictionary. *)
Fixpoint dict_get {K V : Type} (eqb : K -> K -> bool) (k : K)
    (d : dict K V) : option V :=
  match d with
  | [] => None
  | (k', v) :: r => if eqb k k' then Some v else dict_get eqb k r
  end.

(** CPython's [_days_in_month]. *)
Definition days_in_month (y m : Z) : Z :=
  match m with
  | 2 => if is_leap y then 29 else 28
  | 4 | 6 | 9 | 11 => 30
  | _ => 31
  end.

(** The two instants [get_commit_stats] builds: [datetime(year, month, 1)]
    and the first instant of the following month. *)
Definition start_of_month (year month : Z) : datetime :=
  mkDatetime year month 1 0 0 0.

Definition start_of_next_month (year month : Z) : datetime :=
  if month =? 12 then mkDatetime (year + 1) 1 1 0 0 0
  else mkDatetime year (month + 1) 1 0 0 0.

(** Both [datetime] constructors of [get_commit_stats] accept their
    arguments. *)
Definition period_valid (year month : Z) : bool :=
  datetime_valid_ym year month
  && (if month =? 12 then datetime_valid_ym (year + 1) 1
      else datetime_valid_ym year (month + 1)).

(** The previous month as [main] computes it. *)
Definition previous_month (year month : Z) : Z * Z :=
  if month =? 1 then (year - 1, 12) else (year, month - 1).

(** What [main] leaves on the console: the notice about the missing token,
    the report (the values its [print] calls format), or the line
    ["Error: ..."] of its [except] clause. *)
Inductive main_outcome : Type :=
| TokenMissing
| ReportPrinted (current previous : stats) (productivity : report)
| ErrorPrinted (e : exn).

(** [try: ... except Exception as e: ...]: every exception of the model is
    an [Exception]. *)
Definition try_except {A : Type} (m : M A) (handler : exn -> M A) : M A :=
  fun log =>
    match m log with
    | (Some (Raise e), log') => handler e log'
    | other => other
    end.

Definition lift {A : Type} (r : result A) : M A := fun log => (Some r, log).

Section Main.
Variable orgs_repos : string -> Z -> response (list string).
Variable repos_commits :
  string -> string -> string -> datetime -> datetime -> Z ->
  response (list commit).
Variable repos_commit : string -> string -> string -> response (Z * Z).

Local Open Scope net_scope.

(** [main], after its inputs are read: [token] is [os.getenv('GITHUB_TOKEN')]
    and [org], [username], [year], [month] are the four answers, the last
    two already converted by [int]. *)
Definition main (fuel : nat) (token : option string) (org username : string)
    (year month : Z) : M main_outcome :=
  match token with
  | None => ret TokenMissing
  | Some t =>
      if String.eqb t EmptyString then ret TokenMissing
      else
        try_except
          (current_stats <-
             get_commit_stats orgs_repos repos_commits repos_commit fuel
               org username year month ;;
           let '(prev_year, prev_month) := previous_month year month in
           prev_stats <-
             get_commit_stats orgs_repos repos_commits repos_commit fuel
               org username prev_year prev_month ;;
           productivity <-
             lift (analyze_productivity current_stats prev_stats) ;;
           ret (ReportPrinted current_stats prev_stats productivity))
          (fun e => ret (ErrorPrinted e))
  end.
End Main.

(** The word [main] prints after a percentage:
    ['increase' if pct > 0 else 'decrease']. *)
Definition direction (pct : number) : string :=
  match pct with
  | Inf => "increase"
  | Num q => if Qcltb (Z2Qc 0) q then "increase" else "decrease"
  end.

(** The weekday share [main] prints: [100 - weekend_percentage]. *)
Definition weekday_share (r : report) : Qc :=
  (Z2Qc 100 - weekend_percentage r)%Qc.

(** ** Vocabulary of the further statements *)

(** The requests for the pages [first], ..., [first + n - 1] of a listing. *)
Definition page_requests (req : Z -> request) (first : Z) (n : nat)
  : list request :=
  map (fun i => req (first + Z.of_nat i)) (seq 0 n).

Section PerKey.
Variable repos_commit : string -> string -> string -> response (Z * Z).
Variable org : string.

(** The successfully detailed commits of one repository, and of one day. *)
Definition repo_commits (repo : string) (cs : list commit) : list commit :=
  filter (fun c => detailed repos_commit org c
                   && String.eqb (repo_name c) repo) cs.

Definition day_commits (key : day_key) (cs : list commit) : list commit :=
  filter (fun c => detailed repos_commit org c
                   && day_key_eqb (strftime_Ymd (commit_date c)) key) cs.

(** The bucket that sums a list of detailed commits; none for no commit. *)
Definition bucket_of (cs : list commit) : option bucket :=
  match cs with
  | [] => None
  | _ =>
      Some (mkBucket (Zsum (map (commit_additions repos_commit org) cs))
                     (Zsum (map (commit_deletions repos_commit org) cs))
                     (len cs))
  end.
End PerKey.

(** A bucket with the figures of some commits added. *)
Definition bucket_plus (b : bucket) (a d n : Z) : bucket :=
  mkBucket (additions b + a) (deletions b + d) (commits b + n).

(** The three updates of one bucket dictionary for one detailed commit:
    [d[k]['additions'] += a; d[k]['deletions'] += d; d[k]['commits'] += 1]. *)
Definition record_commit {K : Type} (eqb : K -> K -> bool) (k : K)
    (a d : Z) (dd : dict K bucket) : dict K bucket :=
  dict_modify eqb empty_bucket k (add_commits 1)
    (dict_modify eqb empty_bucket k (add_deletions d)
       (dict_modify eqb empty_bucket k (add_additions a) dd)).

Definition bucket_or_empty (o : option bucket) : bucket :=
  match o with Some b => b | None => empty_bucket end.

(** ** Further sample inputs *)

(** A repository listing whose second page fails. *)
Definition failing_repos (_ : string) (page : Z) : response (list string) :=
  if page =? 1 then mkResponse 200 ["repoA"%string] ""
  else mkResponse 500 [] "Server Error".

(** A repository listing without a last page. *)
Definition endless_repos (_ : string) (_ : Z) : response (list string) :=
  mkResponse 200 ["repoA"%string] "".

(** A detail endpoint that answers every lookup with +10/-2. *)
Definition found (_ _ _ : string) : response (Z * Z) :=
  mkResponse 200 (10, 2) "".

(** Two previous snapshots with the same totals and number of days. *)
Definition previous_one : stats :=
  mkStats 5 3 [("repoA"%string, mkBucket 5 3 1)]
    [((2024, 2, 1), mkBucket 5 3 1)] [feb_1st].

Definition previous_two : stats :=
  mkStats 5 3 [("repoB"%string, mkBucket 5 3 2)]
    [((2024, 2, 9), mkBucket 5 3 2)] [].

(** * Properties *)

(** ** Calendar checks *)

(** 0001-01-01 has ordinal 1 and is a Monday; 2024-03-02 is a Saturday,
    2024-03-03 a Sunday and 2024-03-04 a Monday. *)
Example ymd2ord_first : ymd2ord 1 1 1 = 1.
Proof. reflexivity. Qed.

Example weekday_first : weekday (1, 1, 1) = 0.
Proof. reflexivity. Qed.

Example weekday_2024_03_02 : weekday (2024, 3, 2) = 5.
Proof. reflexivity. Qed.

Example weekday_2024_03_03 : weekday (2024, 3, 3) = 6.
Proof. reflexivity. Qed.

Example weekday_2024_03_04 : weekday (2024, 3, 4) = 0.
Proof. reflexivity. Qed.

Lemma weekday_range (k : day_key) : 0 <= weekday k <= 6.
Proof.
  destruct k as [[y m] d]. unfold weekday.
  pose proof (Z.mod_pos_bound (ymd2ord y m d + 6) 7). lia.
Qed.

(** ** Sums over dictionaries *)

Section DictSums.
Context {K : Type}.
Variable eqb : K -> K -> bool.

(** Updating one entry through the default factory moves the total of a
    field by exactly what the update adds to that field. *)
Lemma bucket_total_modify (field : bucket -> Z) (f : bucket -> bucket)
    (delta : Z) (k : K) (d : dict K bucket) :
  (forall b, field (f b) = field b + delta) ->
  field empty_bucket = 0 ->
  bucket_total field (dict_modify eqb empty_bucket k f d)
  = bucket_total field d + delta.
Proof.
  intros Hf H0. unfold bucket_total.
  induction d as [|[k' v] r IH]; simpl.
  - rewrite Hf, H0. lia.
  - destruct (eqb k k'); simpl.
    + rewrite Hf. lia.
    + rewrite IH. lia.
Qed.

Lemma dict_modify_length_pos (f : bucket -> bucket) (k : K)
    (d : dict K bucket) :
  dict_modify eqb empty_bucket k f d <> [].
Proof.
  destruct d as [|[k' v] r]; simpl; [discriminate|].
  destruct (eqb k k'); discriminate.
Qed.
End DictSums.

(** ** The aggregation loop *)

Section Aggregator.
Variable repos_commit : string -> string -> string -> response (Z * Z).
Variable org : string.

Local Abbreviation detail := (detail repos_commit org).
Local Abbreviation detailed := (detailed repos_commit org).
Local Abbreviation commit_additions := (commit_additions repos_commit org).
Local Abbreviation commit_deletions := (commit_deletions repos_commit org).
Local Abbreviation aggregate := (aggregate repos_commit org).

(** The loop always returns: it issues one detail request per commit, in
    order, and its result is the fold of [process_commit]. *)
Lemma get_commit_stats_loop_run (cs : list commit) (st : stats)
    (log : list request) :
  get_commit_stats_loop repos_commit org cs st log
  = (Some (Ok (aggregate cs st)), log ++ detail_requests org cs).
Proof.
  revert st log.
  induction cs as [|c cs IH]; intros st log; simpl.
  - unfold ret. now rewrite app_nil_r.
  - unfold bind, get_commit_detail. rewrite IH.
    now rewrite <- app_assoc.
Qed.

Lemma process_commit_failed (st : stats) (c : commit) :
  detailed c = false ->
  process_commit st c (detail c)
  = mkStats (total_additions st) (total_deletions st) (repo_stats st)
      (daily_stats st) (commit_times st ++ [commit_date c]).
Proof.
  unfold detailed, process_commit. intros ->. reflexivity.
Qed.

Ltac bucket_field :=
  intros []; unfold add_additions, add_deletions, add_commits; simpl; lia.

Ltac modify_step :=
  match goal with
  | |- context [bucket_total ?g (dict_modify ?e empty_bucket ?k (?f ?x) ?d)] =>
      first
        [ rewrite (bucket_total_modify e g (f x) x k d)
            by first [bucket_field | reflexivity]
        | rewrite (bucket_total_modify e g (f x) 0 k d)
            by first [bucket_field | reflexivity] ]
  end.

Ltac modify_totals :=
  unfold repo_modify, day_modify; repeat modify_step.

(** What one successfully detailed commit adds to each of the totals. *)
Lemma process_commit_detailed (st : stats) (c : commit) :
  detailed c = true ->
  let st' := process_commit st c (detail c) in
  total_additions st' = total_additions st + commit_additions c
  /\ total_deletions st' = total_deletions st + commit_deletions c
  /\ bucket_total additions (repo_stats st')
     = bucket_total additions (repo_stats st) + commit_additions c
  /\ bucket_total deletions (repo_stats st')
     = bucket_total deletions (repo_stats st) + commit_deletions c
  /\ bucket_total commits (repo_stats st')
     = bucket_total commits (repo_stats st) + 1
  /\ bucket_total additions (daily_stats st')
     = bucket_total additions (daily_stats st) + commit_additions c
  /\ bucket_total deletions (daily_stats st')
     = bucket_total deletions (daily_stats st) + commit_deletions c
  /\ bucket_total commits (daily_stats st')
     = bucket_total commits (daily_stats st) + 1
  /\ commit_times st' = commit_times st ++ [commit_date c].
Proof.
  unfold detailed, commit_additions, commit_deletions, process_commit.
  intros ->. destruct (json (detail c)) as [a d]. simpl.
  repeat split; try reflexivity; modify_totals; lia.
Qed.
(** The totals after the loop, from any starting state. *)
Lemma aggregate_totals (cs : list commit) (st : stats) :
  let ok := filter detailed cs in
  let st' := aggregate cs st in
  total_additions st'
  = total_additions st + Zsum (map commit_additions ok)
  /\ total_deletions st'
     = total_deletions st + Zsum (map commit_deletions ok)
  /\ bucket_total additions (repo_stats st')
     = bucket_total additions (repo_stats st)
       + Zsum (map commit_additions ok)
  /\ bucket_total deletions (repo_stats st')
     = bucket_total deletions (repo_stats st)
       + Zsum (map commit_deletions ok)
  /\ bucket_total commits (repo_stats st')
     = bucket_total commits (repo_stats st) + len ok
  /\ bucket_total additions (daily_stats st')
     = bucket_total additions (daily_stats st)
       + Zsum (map commit_additions ok)
  /\ bucket_total deletions (daily_stats st')
     = bucket_total deletions (daily_stats st)
       + Zsum (map commit_deletions ok)
  /\ bucket_total commits (daily_stats st')
     = bucket_total commits (daily_stats st) + len ok.
Proof.
  revert st. induction cs as [|c cs IH]; intros st; cbn zeta.
  - unfold len; simpl. repeat split; lia.
  - specialize (IH (process_commit st c (detail c))). cbn zeta in IH.
    change (aggregate (c :: cs) st)
      with (aggregate cs (process_commit st c (detail c))).
    simpl filter. destruct (detailed c) eqn:Hc.
    + pose proof (process_commit_detailed st c Hc) as Hs.
      cbn zeta in Hs. unfold len in *. simpl map. simpl Zsum.
      simpl List.length. rewrite Nat2Z.inj_succ.
      destruct IH as (I1 & I2 & I3 & I4 & I5 & I6 & I7 & I8).
      destruct Hs as (S1 & S2 & S3 & S4 & S5 & S6 & S7 & S8 & _).
      repeat split; lia.
    + rewrite (process_commit_failed st c Hc) in IH |- *.
      simpl in IH. exact IH.
Qed.

(** The timestamp sequence after the loop: one entry per commit of the
    input, in order, whatever the detail lookup returned. *)
Lemma aggregate_commit_times (cs : list commit) (st : stats) :
  commit_times (aggregate cs st) = commit_times st ++ map commit_date cs.
Proof.
  revert st. induction cs as [|c cs IH]; intros st.
  - simpl. now rewrite app_nil_r.
  - change (aggregate (c :: cs) st)
      with (aggregate cs (process_commit st c (detail c))).
    rewrite IH. destruct (detailed c) eqn:Hc.
    + destruct (process_commit_detailed st c Hc)
        as (_ & _ & _ & _ & _ & _ & _ & _ & Ht).
      rewrite Ht, <- app_assoc. reflexivity.
    + rewrite (process_commit_failed st c Hc). simpl.
      rewrite <- app_assoc. reflexivity.
Qed.

(** Totals and buckets do not see the commits whose lookup failed: they
    are those of the loop run over the detailed commits alone. *)
Lemma aggregate_ignores_failed (cs : list commit) (st : stats) :
  let st1 := aggregate cs st in
  let st2 := aggregate (filter detailed cs) st in
  total_additions st1 = total_additions st2
  /\ total_deletions st1 = total_deletions st2
  /\ repo_stats st1 = repo_stats st2
  /\ daily_stats st1 = daily_stats st2.
Proof.
  cbn zeta.
  assert (Hgen : forall cs st st',
    total_additions st = total_additions st' ->
    total_deletions st = total_deletions st' ->
    repo_stats st = repo_stats st' ->
    daily_stats st = daily_stats st' ->
    total_additions (aggregate cs st)
    = total_additions (aggregate (filter detailed cs) st')
    /\ total_deletions (aggregate cs st)
       = total_deletions (aggregate (filter detailed cs) st')
    /\ repo_stats (aggregate cs st)
       = repo_stats (aggregate (filter detailed cs) st')
    /\ daily_stats (aggregate cs st)
       = daily_stats (aggregate (filter detailed cs) st')).
  { clear cs st. induction cs as [|c cs IH]; intros st st' H1 H2 H3 H4.
    - simpl. auto.
    - change (aggregate (c :: cs) st)
        with (aggregate cs (process_commit st c (detail c))).
      simpl filter. destruct (detailed c) eqn:Hc.
      + change (aggregate (c :: filter detailed cs) st')
          with (aggregate (filter detailed cs)
                  (process_commit st' c (detail c))).
        apply IH; unfold process_commit;
          destruct (status_code (detail c) =? 200);
          destruct (json (detail c)); simpl; congruence.
      + apply IH; rewrite (process_commit_failed st c Hc); assumption. }
  apply Hgen; reflexivity.
Qed.

(** C1. Conservation of the aggregator: the loop of [get_commit_stats]
    returns for every commit sequence, and in its result the grand total
    additions equal the sum of the additions of the successfully detailed
    commits, the sum of the additions of the repository buckets and the
    sum of the additions of the day buckets; the same holds for
    deletions; and the commit counts of either kind of bucket sum to the
    number of successfully detailed commits.  (Non-negativity of the
    detail results is not needed.) *)
Theorem get_commit_stats_conservation (cs : list commit)
    (log : list request) :
  exists st log',
    get_commit_stats_loop repos_commit org cs initial_stats log
    = (Some (Ok st), log')
    /\ total_additions st = Zsum (map commit_additions (filter detailed cs))
    /\ bucket_total additions (repo_stats st) = total_additions st
    /\ bucket_total additions (daily_stats st) = total_additions st
    /\ total_deletions st = Zsum (map commit_deletions (filter detailed cs))
    /\ bucket_total deletions (repo_stats st) = total_deletions st
    /\ bucket_total deletions (daily_stats st) = total_deletions st
    /\ bucket_total commits (repo_stats st) = len (filter detailed cs)
    /\ bucket_total commits (daily_stats st) = len (filter detailed cs).
Proof.
  eexists. eexists. split; [apply get_commit_stats_loop_run|].
  pose proof (aggregate_totals cs initial_stats) as H. cbn zeta in H.
  unfold bucket_total in H. simpl in H. unfold bucket_total.
  destruct H as (H1 & H2 & H3 & H4 & H5 & H6 & H7 & H8).
  repeat split; lia.
Qed.
(** The day buckets never become empty again, and one detailed commit is
    enough to have one: then the cadence division of the analyzer is
    defined on the result of the loop. *)
Lemma process_commit_daily_nonempty (st : stats) (c : commit)
    (r : response (Z * Z)) :
  daily_stats st <> [] -> daily_stats (process_commit st c r) <> [].
Proof.
  intros Hne. unfold process_commit.
  destruct (status_code r =? 200); [|exact Hne].
  destruct (json r) as [a d]. simpl. apply dict_modify_length_pos.
Qed.

Lemma aggregate_daily_nonempty (cs : list commit) (st : stats) :
  daily_stats st <> [] -> daily_stats (aggregate cs st) <> [].
Proof.
  revert st. induction cs as [|c cs IH]; intros st Hne; [exact Hne|].
  change (aggregate (c :: cs) st)
    with (aggregate cs (process_commit st c (detail c))).
  apply IH. now apply process_commit_daily_nonempty.
Qed.

Lemma aggregate_cadence_defined (cs : list commit) :
  existsb detailed cs = true ->
  cadence_defined (aggregate cs initial_stats).
Proof.
  intros Hex. right. revert Hex. generalize initial_stats.
  induction cs as [|c cs IH]; intros st Hex; [discriminate|].
  change (aggregate (c :: cs) st)
    with (aggregate cs (process_commit st c (detail c))).
  simpl in Hex. destruct (detailed c) eqn:Hc.
  - apply aggregate_daily_nonempty. unfold process_commit.
    destruct (status_code (detail c) =? 200) eqn:Hs.
    + destruct (json (detail c)) as [a d]. simpl.
      apply dict_modify_length_pos.
    + unfold detailed in Hc. congruence.
  - apply IH. exact Hex.
Qed.
End Aggregator.

(** ** Rational arithmetic *)

Lemma Z2Qc_inj (a b : Z) : Z2Qc a = Z2Qc b -> a = b.
Proof.
  unfold Z2Qc. intros H. apply Q2Qc_eq_iff in H.
  unfold Qeq in H. simpl in H. lia.
Qed.

Lemma Z2Qc_nonzero (a : Z) : a <> 0 -> Z2Qc a <> Z2Qc 0.
Proof. intros Ha H. apply Ha. now apply Z2Qc_inj. Qed.

Lemma Z2Qc_0 : Z2Qc 0 = 0%Qc.
Proof. apply Qc_is_canon. reflexivity. Qed.

Lemma Z2Qc_add (a b : Z) : Z2Qc (a + b) = (Z2Qc a + Z2Qc b)%Qc.
Proof.
  unfold Z2Qc, Qcplus. apply Q2Qc_eq_iff. cbn [this Q2Qc].
  rewrite !Qred_correct, inject_Z_plus. reflexivity.
Qed.

Lemma Z2Qc_opp (a : Z) : Z2Qc (- a) = (- Z2Qc a)%Qc.
Proof.
  unfold Z2Qc, Qcopp. apply Q2Qc_eq_iff. cbn [this Q2Qc].
  rewrite !Qred_correct, inject_Z_opp. reflexivity.
Qed.

Lemma Z2Qc_sub (a b : Z) : Z2Qc (a - b) = (Z2Qc a - Z2Qc b)%Qc.
Proof.
  unfold Z.sub, Qcminus. now rewrite Z2Qc_add, Z2Qc_opp.
Qed.

Lemma Z2Qc_lt (a b : Z) : a < b <-> (Z2Qc a < Z2Qc b)%Qc.
Proof.
  unfold Qclt, Z2Qc. cbn [this Q2Qc]. rewrite !Qred_correct.
  rewrite <- Zlt_Qlt. reflexivity.
Qed.

Lemma truediv_Ok (a b : Qc) : b <> 0%Qc -> truediv a b = Ok (a / b)%Qc.
Proof.
  intros Hb. unfold truediv. destruct (Qc_eq_dec b 0); [contradiction|].
  reflexivity.
Qed.

Lemma truediv_Z_Ok (a : Qc) (b : Z) :
  b <> 0 -> truediv a (Z2Qc b) = Ok (a / Z2Qc b)%Qc.
Proof.
  intros Hb. apply truediv_Ok. rewrite <- Z2Qc_0. now apply Z2Qc_nonzero.
Qed.

Lemma truediv_zero (a : Qc) : truediv a (Z2Qc 0) = Raise ZeroDivisionError.
Proof.
  unfold truediv. rewrite Z2Qc_0.
  destruct (Qc_eq_dec 0 0) as [_|H]; [reflexivity | now elim H].
Qed.

Lemma Qcltb_lt (a b : Qc) : Qcltb a b = true <-> (a < b)%Qc.
Proof.
  unfold Qcltb, Qclt, Qccompare, Qlt.
  rewrite <- Z.compare_lt_iff. unfold Qcompare.
  destruct (_ ?= _)%Z; split; congruence.
Qed.

Lemma Qcltb_nonzero (b : Qc) : Qcltb (Z2Qc 0) b = true -> b <> 0%Qc.
Proof.
  rewrite Qcltb_lt, Z2Qc_0. intros H ->. now apply Qclt_not_eq in H.
Qed.

Lemma Qcdiv_0_l (b : Qc) : (Z2Qc 0 / b = 0)%Qc.
Proof. rewrite Z2Qc_0. unfold Qcdiv. apply Qcmult_0_l. Qed.

Lemma len_nonempty {A : Type} (l : list A) : is_empty l = false -> len l <> 0.
Proof. destruct l; simpl; [discriminate|]. unfold len. simpl. lia. Qed.

Lemma len_empty {A : Type} (l : list A) : is_empty l = true -> l = [].
Proof. destruct l; simpl; [reflexivity | discriminate]. Qed.

(** ** The guarded divisions of the analyzer *)

Local Open Scope result_scope.

Lemma pct_guard_Z (c p : Z) :
  (if 0 <? p then
     q <- truediv (Z2Qc c) (Z2Qc p) ;; Ok (Num (q * Z2Qc 100)%Qc)
   else Ok Inf)
  = Ok (if 0 <? p then Num (Z2Qc c / Z2Qc p * Z2Qc 100)%Qc else Inf).
Proof.
  destruct (0 <? p) eqn:Hp; [|reflexivity].
  apply Z.ltb_lt in Hp. rewrite truediv_Z_Ok by lia. reflexivity.
Qed.

Lemma pct_guard_Qc (c p : Qc) :
  (if Qcltb (Z2Qc 0) p then
     q <- truediv c p ;; Ok (Num (q * Z2Qc 100)%Qc)
   else Ok Inf)
  = Ok (if Qcltb (Z2Qc 0) p then Num (c / p * Z2Qc 100)%Qc else Inf).
Proof.
  destruct (Qcltb (Z2Qc 0) p) eqn:Hp; [|reflexivity].
  rewrite truediv_Ok by now apply Qcltb_nonzero. reflexivity.
Qed.

Lemma weekend_pct_guard (we wd : Z) :
  (if 0 <? we + wd then
     q <- truediv (Z2Qc we) (Z2Qc (we + wd)) ;; Ok (q * Z2Qc 100)%Qc
   else Ok (Z2Qc 0))
  = Ok (if 0 <? we + wd then (Z2Qc we / Z2Qc (we + wd) * Z2Qc 100)%Qc
        else Z2Qc 0).
Proof.
  destruct (0 <? we + wd) eqn:Hp; [|reflexivity].
  apply Z.ltb_lt in Hp. rewrite truediv_Z_Ok by lia. reflexivity.
Qed.

Lemma daily_avg_guard (st : stats) :
  (if negb (is_empty (daily_stats st)) then
     truediv (Z2Qc (total_additions st + total_deletions st))
             (Z2Qc (len (daily_stats st)))
   else Ok (Z2Qc 0))
  = Ok (daily_average st).
Proof.
  unfold daily_average, total_changes.
  destruct (is_empty (daily_stats st)) eqn:He; simpl; [reflexivity|].
  now rewrite truediv_Z_Ok by now apply len_nonempty.
Qed.

Lemma commit_intervals_length (ts : list datetime) :
  List.length (commit_intervals ts) = (List.length ts - 1)%nat.
Proof. unfold commit_intervals. now rewrite length_map, length_seq. Qed.

Lemma mean_Ok (data : list Z) :
  data <> [] -> mean data = Ok (Z2Qc (Zsum data) / Z2Qc (len data))%Qc.
Proof.
  destruct data as [|x data]; [congruence|]. intros _. unfold mean.
  apply truediv_Z_Ok. unfold len. simpl List.length. lia.
Qed.

(** The cadence block: the only place where the analyzer can raise. *)
Lemma cadence_block (st : stats) :
  (if 1 <? len (commit_times st) then
     avg_commit_interval <- mean (commit_intervals (commit_times st)) ;;
     commits_per_day <-
       truediv (Z2Qc (len (commit_times st)))
               (Z2Qc (len (daily_stats st))) ;;
     Ok (avg_commit_interval, commits_per_day)
   else Ok (Z2Qc 0, Z2Qc 0))
  = if 1 <? len (commit_times st) then
      if is_empty (daily_stats st) then Raise ZeroDivisionError
      else Ok ((Z2Qc (Zsum (commit_intervals (commit_times st)))
                / Z2Qc (len (commit_intervals (commit_times st))))%Qc,
               (Z2Qc (len (commit_times st))
                / Z2Qc (len (daily_stats st)))%Qc)
    else Ok (Z2Qc 0, Z2Qc 0).
Proof.
  destruct (1 <? len (commit_times st)) eqn:Hlen; [|reflexivity].
  apply Z.ltb_lt in Hlen. unfold len in Hlen.
  rewrite mean_Ok.
  - cbn [rbind]. destruct (is_empty (daily_stats st)) eqn:He.
    + apply len_empty in He. rewrite He. unfold len. simpl List.length.
      change (Z.of_nat 0) with 0. now rewrite truediv_zero.
    + now rewrite truediv_Z_Ok by now apply len_nonempty.
  - intros Hnil. apply (f_equal (@List.length Z)) in Hnil.
    rewrite commit_intervals_length in Hnil. simpl in Hnil. lia.
Qed.

(** [analyze_productivity] in closed form: it raises [ZeroDivisionError]
    when there are two or more timestamps and no day bucket, and returns the
    report below otherwise. *)
Lemma analyze_productivity_eq (cur prev : stats) :
  analyze_productivity cur prev
  = let we := fst (fold_left weekend_step (daily_stats cur) (0, 0)) in
    let wd := snd (fold_left weekend_step (daily_stats cur) (0, 0)) in
    let ts := commit_times cur in
    if (1 <? len ts) && is_empty (daily_stats cur) then
      Raise ZeroDivisionError
    else
      Ok {| total_change_percentage :=
              if 0 <? total_changes prev then
                Num (Z2Qc (total_changes cur - total_changes prev)
                     / Z2Qc (total_changes prev) * Z2Qc 100)%Qc
              else Inf;
            additions_change_percentage :=
              if 0 <? total_additions prev then
                Num (Z2Qc (total_additions cur - total_additions prev)
                     / Z2Qc (total_additions prev) * Z2Qc 100)%Qc
              else Inf;
            deletions_change_percentage :=
              if 0 <? total_deletions prev then
                Num (Z2Qc (total_deletions cur - total_deletions prev)
                     / Z2Qc (total_deletions prev) * Z2Qc 100)%Qc
              else Inf;
            daily_average_changes := daily_average cur;
            daily_average_change_percentage :=
              if Qcltb (Z2Qc 0) (daily_average prev) then
                Num ((daily_average cur - daily_average prev)
                     / daily_average prev * Z2Qc 100)%Qc
              else Inf;
            weekend_activity := we;
            weekday_activity := wd;
            weekend_percentage :=
              if 0 <? we + wd then
                (Z2Qc we / Z2Qc (we + wd) * Z2Qc 100)%Qc
              else Z2Qc 0;
            average_commit_interval_minutes :=
              if 1 <? len ts then
                (Z2Qc (Zsum (commit_intervals ts))
                 / Z2Qc (len (commit_intervals ts)) / Z2Qc 60)%Qc
              else (Z2Qc 0 / Z2Qc 60)%Qc;
            commits_per_day :=
              if 1 <? len ts then
                (Z2Qc (len ts) / Z2Qc (len (daily_stats cur)))%Qc
              else Z2Qc 0;
            most_active_repositories :=
              firstn 5 (sort_desc (repo_activity cur)) |}.
Proof.
  unfold analyze_productivity.
  rewrite !pct_guard_Z. cbn [rbind].
  rewrite !daily_avg_guard. cbn [rbind].
  destruct (fold_left weekend_step (daily_stats cur) (0, 0)) as [we wd].
  cbn [fst snd]. cbv zeta.
  rewrite cadence_block.
  destruct (1 <? len (commit_times cur)) eqn:Hlen;
    destruct (is_empty (daily_stats cur)) eqn:He; cbn [andb rbind];
    try reflexivity;
    rewrite pct_guard_Qc, weekend_pct_guard; cbn [rbind];
    rewrite truediv_Z_Ok by lia; reflexivity.
Qed.

(** ** Failed detail lookups *)

(** C3, as stated, fails: the lookup of [commit_a1] fails, the loop returns,
    and the commit's timestamp is in the timestamp sequence all the same
    (the sequence of the detailed commits' timestamps is empty). *)
Lemma failed_lookup_timestamp_recorded :
  detailed not_found "acme" commit_a1 = false
  /\ exists st log',
       get_commit_stats_loop not_found "acme" [commit_a1] initial_stats []
       = (Some (Ok st), log')
       /\ commit_times st = [commit_date commit_a1]
       /\ commit_times st
          <> map commit_date
               (filter (detailed not_found "acme") [commit_a1]).
Proof.
  split; [reflexivity|].
  eexists. eexists. split; [reflexivity|].
  split; [reflexivity | discriminate].
Qed.

(** C3, amended.  For every commit sequence the loop returns, and a commit
    whose detail lookup fails contributes to none of the grand totals,
    repository buckets or day buckets: they are those of the run over the
    successfully detailed commits alone.  The timestamp sequence holds the
    authored timestamp of every commit of the input, detailed or not, in
    processing order. *)
Theorem failed_lookup_contributes_no_totals
    (repos_commit : string -> string -> string -> response (Z * Z))
    (org : string) (cs : list commit) (log : list request) :
  exists st log',
    get_commit_stats_loop repos_commit org cs initial_stats log
    = (Some (Ok st), log')
    /\ (let st_ok :=
          aggregate repos_commit org
            (filter (detailed repos_commit org) cs) initial_stats in
        total_additions st = total_additions st_ok
        /\ total_deletions st = total_deletions st_ok
        /\ repo_stats st = repo_stats st_ok
        /\ daily_stats st = daily_stats st_ok)
    /\ commit_times st = map commit_date cs.
Proof.
  eexists. eexists. split; [apply get_commit_stats_loop_run|].
  split.
  - apply aggregate_ignores_failed.
  - now rewrite aggregate_commit_times.
Qed.

(** ** Totality of the analyzer *)

Lemma analyze_productivity_returns (cur prev : stats) :
  cadence_defined cur -> exists r, analyze_productivity cur prev = Ok r.
Proof.
  intros Hc. rewrite analyze_productivity_eq. cbv zeta.
  destruct ((1 <? len (commit_times cur)) && is_empty (daily_stats cur))
    eqn:Hg; [|eexists; reflexivity].
  apply andb_prop in Hg. destruct Hg as [Hl He].
  apply Z.ltb_lt in Hl. apply len_empty in He.
  destruct Hc as [Hc|Hc]; [lia | contradiction].
Qed.

Lemma analyze_productivity_raises (cur prev : stats) :
  1 < len (commit_times cur) -> daily_stats cur = [] ->
  analyze_productivity cur prev = Raise ZeroDivisionError.
Proof.
  intros Hl He. rewrite analyze_productivity_eq. cbv zeta.
  apply Z.ltb_lt in Hl. rewrite Hl, He. reflexivity.
Qed.

(** With fewer than two timestamps both cadence values are 0. *)
Lemma cadence_defaults (cur prev : stats) :
  len (commit_times cur) < 2 ->
  exists r, analyze_productivity cur prev = Ok r
            /\ average_commit_interval_minutes r = 0%Qc
            /\ commits_per_day r = 0%Qc.
Proof.
  intros Hl. rewrite analyze_productivity_eq. cbv zeta.
  assert (Hg : (1 <? len (commit_times cur)) = false)
    by (apply Z.ltb_ge; lia).
  rewrite Hg. cbn [andb]. eexists. split; [reflexivity|]. cbn.
  split; [apply Qcdiv_0_l | apply Z2Qc_0].
Qed.

(** C5: the cadence division does divide by zero.  Two commits whose detail
    lookups both fail leave two timestamps and no day bucket in the result
    of the aggregation loop, and [analyze_productivity] raises
    [ZeroDivisionError] on that snapshot. *)
Theorem cadence_division_by_zero :
  exists st log',
    get_commit_stats_loop not_found "acme" [commit_a1; commit_a2]
      initial_stats []
    = (Some (Ok st), log')
    /\ len (commit_times st) = 2
    /\ daily_stats st = []
    /\ analyze_productivity st initial_stats = Raise ZeroDivisionError.
Proof.
  eexists. eexists. split; [reflexivity|].
  split; [reflexivity|]. split; [reflexivity|].
  apply analyze_productivity_raises; [reflexivity | reflexivity].
Qed.

(** ** Percentage changes *)

Lemma Zltb_Qcltb (p : Z) : (0 <? p) = Qcltb (Z2Qc 0) (Z2Qc p).
Proof.
  destruct (Qcltb (Z2Qc 0) (Z2Qc p)) eqn:Hq.
  - apply Qcltb_lt, Z2Qc_lt in Hq. now apply Z.ltb_lt.
  - apply Z.ltb_ge. destruct (Z.lt_ge_cases 0 p) as [Hp|Hp]; [|lia].
    apply Z2Qc_lt, Qcltb_lt in Hp. congruence.
Qed.

(** The guarded expression of the code meets the specification's
    definition of the percentage change. *)
Lemma pct_guard_spec (c p : Qc) :
  pct_change_spec c p
    (if Qcltb (Z2Qc 0) p then Num ((c - p) / p * Z2Qc 100)%Qc else Inf).
Proof.
  split.
  - intros Hp. rewrite <- Z2Qc_0 in Hp. apply Qcltb_lt in Hp.
    now rewrite Hp.
  - intros -> _. destruct (Qcltb (Z2Qc 0) 0) eqn:Hq; [|reflexivity].
    apply Qcltb_lt in Hq. rewrite Z2Qc_0 in Hq.
    now apply Qclt_not_eq in Hq.
Qed.

Lemma pct_guard_instances (c p : Qc) :
  pct_change_instances c p
    (if Qcltb (Z2Qc 0) p then Num ((c - p) / p * Z2Qc 100)%Qc else Inf).
Proof.
  split.
  - intros Hc ->. rewrite <- Z2Qc_0 in Hc. apply Qcltb_lt in Hc.
    rewrite Hc. f_equal. unfold Qcminus. rewrite Qcplus_opp_r.
    unfold Qcdiv. now rewrite !Qcmult_0_l.
  - intros _ ->. destruct (Qcltb (Z2Qc 0) 0) eqn:Hq; [|reflexivity].
    apply Qcltb_lt in Hq. rewrite Z2Qc_0 in Hq.
    now apply Qclt_not_eq in Hq.
Qed.

Lemma pct_guard_Z_eq (c p : Z) :
  (if 0 <? p then Num (Z2Qc (c - p) / Z2Qc p * Z2Qc 100)%Qc else Inf)
  = (if Qcltb (Z2Qc 0) (Z2Qc p) then
       Num ((Z2Qc c - Z2Qc p) / Z2Qc p * Z2Qc 100)%Qc
     else Inf).
Proof. now rewrite Zltb_Qcltb, Z2Qc_sub. Qed.

(** C4. Whenever [analyze_productivity] returns, which it does on every
    input whose cadence division is defined, each of its four percentage
    fields (total changes, additions, deletions, daily average) is
    [(curr - prev) / prev * 100] when its own previous value is positive
    and the infinite sentinel when that value is 0 and the current one is
    not; in particular a field is 0 when current and previous value are the
    same positive number, and the sentinel when the current value is
    positive and the previous one 0. *)
Theorem percentage_change_definition (cur prev : stats) :
  cadence_defined cur ->
  exists r,
    analyze_productivity cur prev = Ok r
    /\ pct_change_spec (Z2Qc (total_changes cur)) (Z2Qc (total_changes prev))
         (total_change_percentage r)
    /\ pct_change_spec (Z2Qc (total_additions cur))
         (Z2Qc (total_additions prev)) (additions_change_percentage r)
    /\ pct_change_spec (Z2Qc (total_deletions cur))
         (Z2Qc (total_deletions prev)) (deletions_change_percentage r)
    /\ pct_change_spec (daily_average cur) (daily_average prev)
         (daily_average_change_percentage r)
    /\ pct_change_instances (Z2Qc (total_changes cur))
         (Z2Qc (total_changes prev)) (total_change_percentage r)
    /\ pct_change_instances (Z2Qc (total_additions cur))
         (Z2Qc (total_additions prev)) (additions_change_percentage r)
    /\ pct_change_instances (Z2Qc (total_deletions cur))
         (Z2Qc (total_deletions prev)) (deletions_change_percentage r)
    /\ pct_change_instances (daily_average cur) (daily_average prev)
         (daily_average_change_percentage r).
Proof.
  intros Hc. destruct (analyze_productivity_returns cur prev Hc) as [r Hr].
  exists r. split; [exact Hr|].
  rewrite analyze_productivity_eq in Hr. cbv zeta in Hr.
  destruct ((1 <? len (commit_times cur)) && is_empty (daily_stats cur));
    [discriminate|].
  injection Hr as <-.
  cbn [total_change_percentage additions_change_percentage
       deletions_change_percentage daily_average_change_percentage].
  rewrite !pct_guard_Z_eq.
  repeat split; first [apply pct_guard_spec | apply pct_guard_instances].
Qed.

(** The theorem at a concrete pair of snapshots. *)
Lemma percentage_change_definition_witness :
  exists r,
    analyze_productivity cadence_stats initial_stats = Ok r
    /\ pct_change_spec (Z2Qc (total_changes cadence_stats))
         (Z2Qc (total_changes initial_stats)) (total_change_percentage r).
Proof.
  destruct (percentage_change_definition cadence_stats initial_stats)
    as [r (Hr & H1 & _)].
  - right. discriminate.
  - exists r. split; assumption.
Defined.

(** C10. On every input on which [analyze_productivity] returns (every input
    whose cadence division is defined, all-zero current snapshots among
    them), a percentage field whose previous-period denominator is 0 is the
    infinite sentinel, whatever the current value, 0 included: so when the
    previous additions and deletions are 0 (hence also the previous total
    and daily average), all four fields are the sentinel. *)
Theorem zero_baseline_is_infinite (cur prev : stats) :
  cadence_defined cur ->
  total_additions prev = 0 ->
  total_deletions prev = 0 ->
  exists r,
    analyze_productivity cur prev = Ok r
    /\ total_changes prev = 0
    /\ daily_average prev = 0%Qc
    /\ total_change_percentage r = Inf
    /\ additions_change_percentage r = Inf
    /\ deletions_change_percentage r = Inf
    /\ daily_average_change_percentage r = Inf.
Proof.
  intros Hc Ha Hd.
  destruct (analyze_productivity_returns cur prev Hc) as [r Hr].
  exists r. split; [exact Hr|].
  rewrite analyze_productivity_eq in Hr. cbv zeta in Hr.
  destruct ((1 <? len (commit_times cur)) && is_empty (daily_stats cur));
    [discriminate|].
  injection Hr as <-.
  cbn [total_change_percentage additions_change_percentage
       deletions_change_percentage daily_average_change_percentage].
  assert (Ht : total_changes prev = 0) by (unfold total_changes; lia).
  assert (Havg : daily_average prev = 0%Qc).
  { unfold daily_average. rewrite Ht.
    destruct (is_empty (daily_stats prev));
      [apply Z2Qc_0 | apply Qcdiv_0_l]. }
  rewrite Ht, Ha, Hd, Havg. repeat split; reflexivity.
Qed.

(** The theorem at an all-zero current and previous snapshot. *)
Lemma zero_baseline_is_infinite_witness :
  exists r,
    analyze_productivity initial_stats initial_stats = Ok r
    /\ total_change_percentage r = Inf
    /\ daily_average_change_percentage r = Inf.
Proof.
  destruct (zero_baseline_is_infinite initial_stats initial_stats)
    as [r (Hr & _ & _ & H1 & _ & _ & H4)].
  - left. unfold len. simpl. lia.
  - reflexivity.
  - reflexivity.
  - exists r. repeat split; assumption.
Defined.

(** ** Weekend and weekday activity *)

Lemma weekend_guard (k : day_key) : (5 <=? weekday k) = is_weekend k.
Proof.
  unfold is_weekend. pose proof (weekday_range k) as Hr.
  destruct (5 <=? weekday k) eqn:H5.
  - apply Z.leb_le in H5. symmetry. apply orb_true_iff.
    rewrite !Z.eqb_eq. lia.
  - apply Z.leb_gt in H5. symmetry. apply orb_false_iff.
    rewrite !Z.eqb_neq. lia.
Qed.

(** Every day key is a weekend day or a weekday, never both. *)
Lemma weekend_or_weekday (k : day_key) : is_weekday k = negb (is_weekend k).
Proof.
  rewrite <- weekend_guard. unfold is_weekday.
  pose proof (weekday_range k) as Hr.
  destruct (5 <=? weekday k) eqn:H5; simpl.
  - apply Z.leb_le in H5. apply andb_false_iff. right.
    apply Z.leb_gt. lia.
  - apply Z.leb_gt in H5. apply andb_true_iff.
    rewrite !Z.leb_le. lia.
Qed.

Lemma weekend_fold (d : dict day_key bucket) (acc : Z * Z) :
  fold_left weekend_step d acc
  = (fst acc + activity is_weekend d, snd acc + activity is_weekday d).
Proof.
  revert acc. induction d as [|[k b] d IH]; intros [we wd].
  - unfold activity. simpl. f_equal; lia.
  - simpl fold_left. rewrite IH. unfold weekend_step, activity.
    simpl filter. rewrite weekend_or_weekday, weekend_guard.
    destruct (is_weekend k); simpl; f_equal; lia.
Qed.

(** C7, as stated, fails: for one change on a Saturday and two on a
    Monday the analyzer finds weekend activity 1 and weekday activity 2;
    evaluated in binary64 as Python does, the weekend percentage is
    33.33333333333333, the weekday percentage 66.66666666666666, and their
    sum 99.99999999999999, not 100. *)
Lemma weekend_weekday_sum_is_not_100 :
  (exists r,
     analyze_productivity weekend_one_weekday_two initial_stats = Ok r
     /\ weekend_activity r = 1
     /\ weekday_activity r = 2)
  /\ weekend_percentage_binary64 1 2 = 0x1.0aaaaaaaaaaaap+5%float
  /\ weekday_percentage_binary64 1 2 = 0x1.0aaaaaaaaaaaap+6%float
  /\ (weekend_percentage_binary64 1 2 + weekday_percentage_binary64 1 2)%float
     = 0x1.8ffffffffffffp+6%float
  /\ PrimFloat.eqb
       (weekend_percentage_binary64 1 2 + weekday_percentage_binary64 1 2)
       100
     = false.
Proof.
  split.
  - rewrite analyze_productivity_eq. cbv zeta. eexists.
    split; [reflexivity|]. split; reflexivity.
  - repeat split; reflexivity.
Qed.

(** C7, amended.  Whenever [analyze_productivity] returns, which it does on
    every input whose cadence division is defined: the weekend activity is
    the additions plus deletions of the day buckets whose key is a Saturday
    or a Sunday, the weekday activity that of the buckets whose key is a
    Monday to Friday, and every key is one or the other; the weekend
    percentage is the value of [weekend / (weekend + weekday) * 100] when
    the total activity is positive, and 0 when both totals are 0.  (That
    the two percentages add up to 100 is not part of it: as computed, they
    need not.) *)
Theorem weekend_weekday_split (cur prev : stats) :
  cadence_defined cur ->
  exists r,
    analyze_productivity cur prev = Ok r
    /\ weekend_activity r = activity is_weekend (daily_stats cur)
    /\ weekday_activity r = activity is_weekday (daily_stats cur)
    /\ (forall k, is_weekday k = negb (is_weekend k))
    /\ (0 < weekend_activity r + weekday_activity r ->
        weekend_percentage r
        = (Z2Qc (weekend_activity r)
           / Z2Qc (weekend_activity r + weekday_activity r)
           * Z2Qc 100)%Qc)
    /\ (weekend_activity r = 0 -> weekday_activity r = 0 ->
        weekend_percentage r = 0%Qc).
Proof.
  intros Hc. destruct (analyze_productivity_returns cur prev Hc) as [r Hr].
  exists r. split; [exact Hr|].
  rewrite analyze_productivity_eq in Hr. cbv zeta in Hr.
  destruct ((1 <? len (commit_times cur)) && is_empty (daily_stats cur));
    [discriminate|].
  injection Hr as <-.
  cbn [weekend_activity weekday_activity weekend_percentage].
  rewrite weekend_fold. cbn [fst snd]. rewrite !Z.add_0_l.
  split; [reflexivity|]. split; [reflexivity|].
  split; [exact weekend_or_weekday|]. split.
  - intros Hpos. apply Z.ltb_lt in Hpos. rewrite Hpos. reflexivity.
  - intros -> ->. simpl. apply Z2Qc_0.
Qed.

(** The theorem at the sample snapshot of 2024-03-01. *)
Lemma weekend_weekday_split_witness :
  exists r,
    analyze_productivity cadence_stats initial_stats = Ok r
    /\ weekend_activity r = 0
    /\ weekday_activity r = 23.
Proof.
  destruct (weekend_weekday_split cadence_stats initial_stats)
    as [r (Hr & H1 & H2 & _)].
  - right. discriminate.
  - exists r. split; [exact Hr|]. rewrite H1, H2. split; reflexivity.
Defined.

(** ** Commit cadence *)

Lemma commit_intervals_three (t0 t1 t2 : datetime) :
  commit_intervals [t0; t1; t2]
  = [to_seconds t1 - to_seconds t0; to_seconds t2 - to_seconds t1].
Proof. reflexivity. Qed.

(** C6, as stated, fails: for the timestamps t, t+60s, t+180s of the sample
    snapshot the analyzer returns an average commit interval of 3/2 minutes
    (90 seconds), not 2 minutes. *)
Lemma cadence_scenario_is_not_two_minutes :
  to_seconds march_1st_10h01 = to_seconds march_1st_10h00 + 60
  /\ to_seconds march_1st_10h03 = to_seconds march_1st_10h00 + 180
  /\ commit_times cadence_stats
     = [march_1st_10h00; march_1st_10h01; march_1st_10h03]
  /\ exists r,
       analyze_productivity cadence_stats initial_stats = Ok r
       /\ average_commit_interval_minutes r = (Z2Qc 3 / Z2Qc 2)%Qc
       /\ average_commit_interval_minutes r <> Z2Qc 2.
Proof.
  split; [reflexivity|]. split; [reflexivity|]. split; [reflexivity|].
  rewrite analyze_productivity_eq. cbv zeta.
  eexists. split; [reflexivity|].
  cbn [average_commit_interval_minutes]. split.
  - apply Qc_is_canon. reflexivity.
  - intros H. apply (f_equal this) in H. vm_compute in H. discriminate.
Qed.

(** C6, amended.  For a current snapshot whose timestamp sequence is
    [t, t+60s, t+180s] and which has at least one day bucket, the consecutive
    differences in processing order are 60 and 120 seconds, the average
    commit interval is their mean, 90 seconds, reported as 90/60 = 3/2
    minutes, and [commits_per_day] is 3 divided by the number of day bucket
    keys. *)
Theorem cadence_scenario (cur prev : stats) (t0 t1 t2 : datetime) :
  commit_times cur = [t0; t1; t2] ->
  to_seconds t1 = to_seconds t0 + 60 ->
  to_seconds t2 = to_seconds t0 + 180 ->
  daily_stats cur <> [] ->
  exists r,
    analyze_productivity cur prev = Ok r
    /\ commit_intervals (commit_times cur) = [60; 120]
    /\ average_commit_interval_minutes r = (Z2Qc 90 / Z2Qc 60)%Qc
    /\ average_commit_interval_minutes r = (Z2Qc 3 / Z2Qc 2)%Qc
    /\ commits_per_day r = (Z2Qc 3 / Z2Qc (len (daily_stats cur)))%Qc.
Proof.
  intros Hts H1 H2 Hd.
  assert (Hi : commit_intervals (commit_times cur) = [60; 120]).
  { rewrite Hts, commit_intervals_three. f_equal; [lia|]. f_equal. lia. }
  rewrite analyze_productivity_eq. cbv zeta.
  destruct (daily_stats cur) as [|kv d] eqn:Hds; [congruence|].
  rewrite Hi, Hts. cbn [is_empty andb]. rewrite andb_false_r.
  eexists. split; [reflexivity|]. split; [reflexivity|].
  cbn [average_commit_interval_minutes commits_per_day].
  repeat split; try reflexivity; apply Qc_is_canon; reflexivity.
Qed.

(** The theorem at the sample snapshot. *)
Lemma cadence_scenario_witness :
  exists r,
    analyze_productivity cadence_stats initial_stats = Ok r
    /\ average_commit_interval_minutes r = (Z2Qc 3 / Z2Qc 2)%Qc
    /\ commits_per_day r = (Z2Qc 3 / Z2Qc 1)%Qc.
Proof.
  destruct (cadence_scenario cadence_stats initial_stats
              march_1st_10h00 march_1st_10h01 march_1st_10h03)
    as [r (Hr & _ & _ & Ha & Hc)].
  - reflexivity.
  - reflexivity.
  - reflexivity.
  - discriminate.
  - exists r. repeat split; assumption.
Defined.

(** ** The ranking of repositories *)

Lemma sort_desc_snoc (l : list (string * Z)) (x : string * Z) :
  sort_desc (l ++ [x]) = insert_desc x (sort_desc l).
Proof. unfold sort_desc. now rewrite fold_left_app. Qed.

Lemma insert_desc_perm (x : string * Z) (l : list (string * Z)) :
  Permutation (insert_desc x l) (x :: l).
Proof.
  induction l as [|y r IH]; simpl; [reflexivity|].
  destruct (snd y <? snd x); [reflexivity|].
  rewrite IH. apply perm_swap.
Qed.

Lemma sort_desc_perm (l : list (string * Z)) : Permutation (sort_desc l) l.
Proof.
  induction l as [|x l IH] using rev_ind; [reflexivity|].
  rewrite sort_desc_snoc, insert_desc_perm, IH.
  apply Permutation_cons_append.
Qed.

Lemma insert_desc_sorted (x : string * Z) (l : list (string * Z)) :
  StronglySorted at_least_as_active l ->
  StronglySorted at_least_as_active (insert_desc x l).
Proof.
  induction 1 as [|y r Hr IH Hy]; simpl.
  - constructor; constructor.
  - destruct (snd y <? snd x) eqn:Hlt.
    + apply Z.ltb_lt in Hlt. constructor; [now constructor|].
      constructor; [unfold at_least_as_active; lia|].
      eapply Forall_impl; [|exact Hy].
      unfold at_least_as_active. intros z Hz. lia.
    + apply Z.ltb_ge in Hlt. constructor; [exact IH|].
      eapply Permutation_Forall;
        [symmetry; apply insert_desc_perm|].
      constructor; [exact Hlt | exact Hy].
Qed.

Lemma sort_desc_sorted (l : list (string * Z)) :
  StronglySorted at_least_as_active (sort_desc l).
Proof.
  induction l as [|x l IH] using rev_ind; [constructor|].
  rewrite sort_desc_snoc. now apply insert_desc_sorted.
Qed.

Lemma filter_below (k : Z) (l : list (string * Z)) :
  Forall (fun z => snd z < k) l -> filter (has_total k) l = [].
Proof.
  induction 1 as [|z l Hz _ IH]; simpl; [reflexivity|].
  unfold has_total at 1. destruct (snd z =? k) eqn:He; [|exact IH].
  apply Z.eqb_eq in He. lia.
Qed.

(** Insertion puts the new entry behind the entries with the same total. *)
Lemma insert_desc_filter (k : Z) (x : string * Z) (l : list (string * Z)) :
  StronglySorted at_least_as_active l ->
  filter (has_total k) (insert_desc x l)
  = filter (has_total k) l ++ (if has_total k x then [x] else []).
Proof.
  induction 1 as [|y r Hr IH Hy]; simpl.
  - destruct (has_total k x); reflexivity.
  - destruct (snd y <? snd x) eqn:Hlt.
    + apply Z.ltb_lt in Hlt. simpl.
      destruct (has_total k x) eqn:Hx; [|now rewrite app_nil_r].
      unfold has_total in Hx. apply Z.eqb_eq in Hx.
      assert (Hnone : filter (has_total k) (y :: r) = []).
      { apply filter_below. constructor; [lia|].
        eapply Forall_impl; [|exact Hy].
        unfold at_least_as_active. intros z Hz. lia. }
      simpl in Hnone. rewrite Hnone. reflexivity.
    + simpl. rewrite IH. destruct (has_total k y); reflexivity.
Qed.

Lemma sort_desc_stable (k : Z) (l : list (string * Z)) :
  filter (has_total k) (sort_desc l) = filter (has_total k) l.
Proof.
  induction l as [|x l IH] using rev_ind; [reflexivity|].
  rewrite sort_desc_snoc, insert_desc_filter by apply sort_desc_sorted.
  rewrite IH, filter_app. reflexivity.
Qed.

(** The sort on the sample of Python's documentation of stability. *)
Example sort_desc_ties :
  sort_desc [("a", 3); ("b", 5); ("c", 3); ("d", 5)]%string
  = [("b", 5); ("d", 5); ("a", 3); ("c", 3)]%string.
Proof. reflexivity. Qed.

(** C8. Whenever [analyze_productivity] returns, which it does on every
    input whose cadence division is defined, [most_active_repositories] is
    the first 5 elements of the list of (repository name, additions +
    deletions) pairs of the repository buckets, sorted in descending order
    of the total by a stable sort: the sorted list is a permutation of the
    pairs, it is descending, and for every total the pairs with that total
    come in their order in the dictionary. *)
Theorem most_active_ranking (cur prev : stats) :
  cadence_defined cur ->
  exists r,
    analyze_productivity cur prev = Ok r
    /\ most_active_repositories r = firstn 5 (sort_desc (repo_activity cur))
    /\ repo_activity cur
       = map (fun kv => (fst kv, additions (snd kv) + deletions (snd kv)))
             (repo_stats cur)
    /\ Permutation (sort_desc (repo_activity cur)) (repo_activity cur)
    /\ StronglySorted at_least_as_active (sort_desc (repo_activity cur))
    /\ (forall k, filter (has_total k) (sort_desc (repo_activity cur))
                  = filter (has_total k) (repo_activity cur)).
Proof.
  intros Hc. destruct (analyze_productivity_returns cur prev Hc) as [r Hr].
  exists r. split; [exact Hr|].
  rewrite analyze_productivity_eq in Hr. cbv zeta in Hr.
  destruct ((1 <? len (commit_times cur)) && is_empty (daily_stats cur));
    [discriminate|].
  injection Hr as <-. cbn [most_active_repositories].
  split; [reflexivity|]. split.
  - unfold repo_activity. apply map_ext. now intros [repo b].
  - split; [apply sort_desc_perm|].
    split; [apply sort_desc_sorted|]. intros k. apply sort_desc_stable.
Qed.

(** The theorem at the sample snapshot. *)
Lemma most_active_ranking_witness :
  exists r,
    analyze_productivity cadence_stats initial_stats = Ok r
    /\ most_active_repositories r = [("repoA", 23)]%string.
Proof.
  destruct (most_active_ranking cadence_stats initial_stats)
    as [r (Hr & Hm & _)].
  - right. discriminate.
  - exists r. split; [exact Hr|]. rewrite Hm. reflexivity.
Defined.

(** ** Pagination *)

Lemma pages_concat_S {A : Type} (page_of : Z -> response (list A))
    (first : Z) (n : nat) :
  pages_concat page_of first (S n)
  = json (page_of first) ++ pages_concat page_of (first + 1) n.
Proof.
  unfold pages_concat. rewrite <- cons_seq, <- seq_shift. simpl flat_map.
  rewrite Z.add_0_r. f_equal. rewrite flat_map_concat_map, map_map.
  rewrite <- flat_map_concat_map. apply flat_map_ext. intros i.
  do 2 f_equal. lia.
Qed.

Lemma listing_ends_S {A : Type} (page_of : Z -> response (list A))
    (first : Z) (n : nat) :
  listing_ends page_of first (S n) ->
  status_code (page_of first) = 200
  /\ json (page_of first) <> []
  /\ listing_ends page_of (first + 1) n.
Proof.
  intros [Hpages Hend].
  destruct (Hpages 0%nat) as [H200 Hne]; [lia|].
  rewrite Z.add_0_r in H200, Hne. split; [exact H200|]. split; [exact Hne|].
  split.
  - intros i Hi. destruct (Hpages (S i)) as [H1 H2]; [lia|].
    replace (first + 1 + Z.of_nat i) with (first + Z.of_nat (S i)) by lia.
    now split.
  - replace (first + 1 + Z.of_nat n) with (first + Z.of_nat (S n)) by lia.
    exact Hend.
Qed.

Section Collector.
Variable orgs_repos : string -> Z -> response (list string).
Variable repos_commits :
  string -> string -> string -> datetime -> datetime -> Z ->
  response (list commit).

(** The inner loop of [get_user_commits] returns, with enough fuel, the
    commits so far followed by the pages of the listing, unfiltered. *)
Lemma get_user_commits_pages_run (org repo username : string)
    (start_date end_date : datetime) (n : nat) :
  forall (fuel : nat) (page : Z) (all_commits : list commit)
         (log : list request),
    (n < fuel)%nat ->
    listing_ends (repos_commits org repo username start_date end_date)
      page n ->
    exists log',
      get_user_commits_pages repos_commits fuel org repo username
        start_date end_date page all_commits log
      = (Some (Ok (all_commits
                   ++ pages_concat
                        (repos_commits org repo username
                           start_date end_date) page n)),
         log').
Proof.
  induction n as [|n IH]; intros fuel page acc log Hfuel Hends;
    (destruct fuel as [|fuel]; [lia|]); simpl;
    unfold bind, get_commits_page.
  - destruct Hends as [_ Hend]. rewrite Z.add_0_r in Hend.
    unfold pages_concat. simpl. rewrite app_nil_r.
    destruct (status_code _ =? 200) eqn:Hs; simpl.
    + apply Z.eqb_eq in Hs. destruct Hend as [Hend|Hend]; [lia|].
      rewrite Hend. eexists. reflexivity.
    + eexists. reflexivity.
  - apply listing_ends_S in Hends. destruct Hends as (H200 & Hne & Hrest).
    apply Z.eqb_eq in H200. rewrite H200. simpl.
    destruct (json (repos_commits org repo username start_date end_date
                      page)) as [|c data] eqn:Hdata; [congruence|].
    destruct (IH fuel (page + 1) (acc ++ c :: data)
                (log ++ [ListCommits org repo username start_date
                           end_date page])) as [log' Hrun];
      [lia | exact Hrest |].
    rewrite Hrun. exists log'. rewrite pages_concat_S, Hdata.
    now rewrite <- app_assoc.
Qed.

(** The outer loop, given for each repository where its listing ends. *)
Lemma get_user_commits_repos_run (org username : string)
    (start_date end_date : datetime) (fuel : nat) (stop : string -> nat)
    (repos : list string) :
  forall (all_commits : list commit) (log : list request),
    (forall repo, In repo repos ->
       (stop repo < fuel)%nat
       /\ listing_ends
            (repos_commits org repo username start_date end_date)
            1 (stop repo)) ->
    exists log',
      get_user_commits_repos repos_commits fuel org username
        start_date end_date repos all_commits log
      = (Some (Ok (all_commits
                   ++ flat_map
                        (fun repo =>
                           pages_concat
                             (repos_commits org repo username
                                start_date end_date) 1 (stop repo))
                        repos)),
         log').
Proof.
  induction repos as [|repo repos IH]; intros acc log Hstop; simpl.
  - unfold ret. rewrite app_nil_r. eexists. reflexivity.
  - destruct (Hstop repo (or_introl eq_refl)) as [Hfuel Hends].
    destruct (get_user_commits_pages_run org repo username start_date
                end_date (stop repo) fuel 1 acc log Hfuel Hends)
      as [log1 Hrun].
    unfold bind. rewrite Hrun.
    destruct (IH (acc ++ pages_concat
                           (repos_commits org repo username start_date
                              end_date) 1 (stop repo)) log1)
      as [log2 Hrest].
    { intros r Hr. apply Hstop. now right. }
    rewrite Hrest. exists log2. now rewrite <- app_assoc.
Qed.

(** The enumeration of repositories, when the listing ends with an empty
    page that was fetched successfully. *)
Lemma get_org_repos_loop_run (org : string) (n : nat) :
  forall (fuel : nat) (page : Z) (repos : list string)
         (log : list request),
    (n < fuel)%nat ->
    listing_ends (orgs_repos org) page n ->
    status_code (orgs_repos org (page + Z.of_nat n)) = 200 ->
    exists log',
      get_org_repos_loop orgs_repos fuel org page repos log
      = (Some (Ok (repos ++ pages_concat (orgs_repos org) page n)), log').
Proof.
  induction n as [|n IH]; intros fuel page repos log Hfuel Hends Hlast;
    (destruct fuel as [|fuel]; [lia|]); simpl;
    unfold bind, get_repos_page.
  - destruct Hends as [_ Hend]. rewrite Z.add_0_r in Hend, Hlast.
    unfold pages_concat. simpl. rewrite app_nil_r.
    destruct Hend as [Hend|Hend]; [congruence|].
    apply Z.eqb_eq in Hlast. rewrite Hlast, Hend. simpl.
    eexists. reflexivity.
  - apply listing_ends_S in Hends. destruct Hends as (H200 & Hne & Hrest).
    apply Z.eqb_eq in H200. rewrite H200. simpl.
    destruct (json (orgs_repos org page)) as [|name data] eqn:Hdata;
      [congruence|].
    destruct (IH fuel (page + 1) (repos ++ name :: data)
                (log ++ [ListRepos org page])) as [log' Hrun];
      [lia | exact Hrest | |].
    { replace (page + 1 + Z.of_nat n) with (page + Z.of_nat (S n)) by lia.
      exact Hlast. }
    rewrite Hrun. exists log'. rewrite pages_concat_S, Hdata.
    now rewrite <- app_assoc.
Qed.
End Collector.

(** ** The request log *)

Lemma appends_ret {A : Type} (a : A) : appends (ret a).
Proof. intros log. exists []. simpl. now rewrite app_nil_r. Qed.

Lemma appends_raise {A : Type} (e : exn) : appends (@raise A e).
Proof. intros log. exists []. simpl. now rewrite app_nil_r. Qed.

Lemma appends_out_of_fuel {A : Type} : appends (@out_of_fuel A).
Proof. intros log. exists []. simpl. now rewrite app_nil_r. Qed.

Lemma appends_bind {A B : Type} (m : M A) (k : A -> M B) :
  appends m -> (forall a, appends (k a)) -> appends (bind m k).
Proof.
  intros Hm Hk log. unfold bind. destruct (Hm log) as [r1 H1].
  destruct (m log) as [[[a|e]|] log1]; simpl in H1; subst log1.
  - destruct (Hk a (log ++ r1)) as [r2 H2]. exists (r1 ++ r2).
    now rewrite H2, app_assoc.
  - now exists r1.
  - now exists r1.
Qed.

Create HintDb log.

#[local] Hint Resolve appends_ret appends_raise appends_out_of_fuel : log.

Section Log.
Variable orgs_repos : string -> Z -> response (list string).
Variable repos_commits :
  string -> string -> string -> datetime -> datetime -> Z ->
  response (list commit).
Variable repos_commit : string -> string -> string -> response (Z * Z).

Lemma appends_get_repos_page (org : string) (page : Z) :
  appends (get_repos_page orgs_repos org page).
Proof. intros log. eexists. reflexivity. Qed.

Lemma appends_get_commits_page (org repo username : string)
    (s e : datetime) (page : Z) :
  appends (get_commits_page repos_commits org repo username s e page).
Proof. intros log. eexists. reflexivity. Qed.

Lemma appends_get_org_repos_loop (fuel : nat) (org : string) :
  forall page repos,
    appends (get_org_repos_loop orgs_repos fuel org page repos).
Proof.
  induction fuel as [|fuel IH]; intros page repos; simpl;
    [auto with log|].
  apply appends_bind; [apply appends_get_repos_page|].
  intros response. destruct (negb _); [auto with log|].
  destruct (json response); [auto with log | apply IH].
Qed.

Lemma appends_get_user_commits_pages (fuel : nat)
    (org repo username : string) (s e : datetime) :
  forall page all_commits,
    appends (get_user_commits_pages repos_commits fuel org repo username
               s e page all_commits).
Proof.
  induction fuel as [|fuel IH]; intros page acc; simpl;
    [auto with log|].
  apply appends_bind; [apply appends_get_commits_page|].
  intros response. destruct (negb _); [auto with log|].
  destruct (json response); [auto with log | apply IH].
Qed.

Lemma appends_get_user_commits_repos (fuel : nat) (org username : string)
    (s e : datetime) (repos : list string) :
  forall all_commits,
    appends (get_user_commits_repos repos_commits fuel org username
               s e repos all_commits).
Proof.
  induction repos as [|repo repos IH]; intros acc; simpl;
    [auto with log|].
  apply appends_bind; [apply appends_get_user_commits_pages | apply IH].
Qed.

(** Whatever its arguments, [get_user_commits] starts by requesting the
    first page of the organization's repositories. *)
Lemma get_user_commits_first_request (fuel : nat) (org username : string)
    (s e : datetime) (log : list request) :
  exists rest,
    snd (get_user_commits orgs_repos repos_commits (S fuel) org username
           s e log)
    = log ++ ListRepos org 1 :: rest.
Proof.
  unfold get_user_commits, get_org_repos. simpl get_org_repos_loop.
  assert (Hk : forall response,
    appends
      (bind
         (if negb (status_code response =? 200) then
            raise (Exception
                     ("Failed to fetch repos: " ++ text response))
          else
            match json response with
            | [] => ret []
            | _ :: _ =>
                get_org_repos_loop orgs_repos fuel org (1 + 1)
                  ([] ++ json response)
            end)
         (fun repos =>
            get_user_commits_repos repos_commits (S fuel) org username
              s e repos []))).
  { intros response. apply appends_bind.
    - destruct (negb _); [auto with log|].
      destruct (json response); [auto with log|].
      apply appends_get_org_repos_loop.
    - intros repos. apply appends_get_user_commits_repos. }
  destruct (Hk (orgs_repos org 1) (log ++ [ListRepos org 1]))
    as [rest Hrest].
  exists rest. unfold bind in *. unfold get_repos_page at 1.
  cbn beta iota. rewrite <- app_assoc in Hrest. simpl app in Hrest.
  rewrite <- Hrest. clear Hrest Hk.
  destruct (negb (status_code (orgs_repos org 1) =? 200)); [reflexivity|].
  destruct (json (orgs_repos org 1)); reflexivity.
Qed.

Lemma fits_c_int_iff (z : Z) :
  fits_c_int z = true <-> -2147483648 <= z <= 2147483647.
Proof. unfold fits_c_int. rewrite andb_true_iff, !Z.leb_le. tauto. Qed.

Lemma fits_both_iff (y m : Z) :
  fits_c_int y && fits_c_int m = true
  <-> -2147483648 <= y <= 2147483647 /\ -2147483648 <= m <= 2147483647.
Proof. now rewrite andb_true_iff, !fits_c_int_iff. Qed.

Lemma datetime_valid_ym_iff (y m : Z) :
  datetime_valid_ym y m = true <-> 1 <= y <= 9999 /\ 1 <= m <= 12.
Proof.
  unfold datetime_valid_ym. rewrite !andb_true_iff, !Z.leb_le. lia.
Qed.

Lemma datetime_valid_fits (y m : Z) :
  datetime_valid_ym y m = true -> fits_c_int y && fits_c_int m = true.
Proof.
  rewrite datetime_valid_ym_iff, fits_both_iff. lia.
Qed.

Lemma period_valid_iff (year month : Z) :
  period_valid year month = true
  <-> 1 <= year <= 9999 /\ 1 <= month <= 12 /\ (month = 12 -> year < 9999).
Proof.
  unfold period_valid. rewrite andb_true_iff.
  destruct (month =? 12) eqn:H12;
    rewrite ?Z.eqb_eq, ?Z.eqb_neq in H12;
    rewrite !datetime_valid_ym_iff; lia.
Qed.

(** The constructor on accepted arguments, and on rejected ones. *)
Lemma datetime_first_of_month_valid (y m : Z) (log : list request) :
  datetime_valid_ym y m = true ->
  datetime_first_of_month y m log = (Some (Ok (mkDatetime y m 1 0 0 0)), log).
Proof.
  intros Hv. unfold datetime_first_of_month.
  now rewrite (datetime_valid_fits y m Hv), Hv.
Qed.

Lemma datetime_first_of_month_invalid (y m : Z) (log : list request) :
  datetime_valid_ym y m = false ->
  datetime_first_of_month y m log
  = (Some (Raise (if fits_c_int y && fits_c_int m then ValueError
                  else OverflowError)), log).
Proof.
  intros Hv. unfold datetime_first_of_month. rewrite Hv.
  now destruct (fits_c_int y && fits_c_int m).
Qed.

(** On arguments both constructors accept, [get_commit_stats] is the
    collection over the month followed by the aggregation loop. *)
Lemma get_commit_stats_valid (fuel : nat) (org username : string)
    (year month : Z) (log : list request) :
  period_valid year month = true ->
  get_commit_stats orgs_repos repos_commits repos_commit fuel org
    username year month log
  = bind
      (get_user_commits orgs_repos repos_commits fuel org username
         (start_of_month year month) (start_of_next_month year month))
      (fun commits =>
         get_commit_stats_loop repos_commit org commits initial_stats)
      log.
Proof.
  intros Hv. unfold period_valid in Hv. apply andb_prop in Hv.
  destruct Hv as [H1 H2].
  unfold get_commit_stats, start_of_next_month, start_of_month.
  unfold bind at 1. rewrite (datetime_first_of_month_valid _ _ log H1).
  unfold bind at 1.
  destruct (month =? 12);
    rewrite (datetime_first_of_month_valid _ _ log H2); reflexivity.
Qed.

(** On any other arguments it raises before it issues a request:
    [OverflowError] when the year or the month does not fit a C [int],
    [ValueError] otherwise. *)
Lemma get_commit_stats_rejected (fuel : nat) (org username : string)
    (year month : Z) (log : list request) :
  period_valid year month = false ->
  get_commit_stats orgs_repos repos_commits repos_commit fuel org
    username year month log
  = (Some (Raise (if fits_c_int year && fits_c_int month then ValueError
                  else OverflowError)), log).
Proof.
  intros Hv. unfold get_commit_stats. unfold bind at 1.
  destruct (datetime_valid_ym year month) eqn:H1.
  - rewrite (datetime_first_of_month_valid _ _ log H1).
    rewrite (datetime_valid_fits _ _ H1).
    unfold period_valid in Hv. rewrite H1 in Hv. simpl in Hv.
    apply datetime_valid_ym_iff in H1. unfold bind at 1.
    destruct (month =? 12);
      rewrite (datetime_first_of_month_invalid _ _ log Hv);
      match goal with
      | |- context [fits_c_int ?a && fits_c_int ?b] =>
          replace (fits_c_int a && fits_c_int b) with true
            by (symmetry; apply fits_both_iff; lia)
      end; reflexivity.
  - now rewrite (datetime_first_of_month_invalid _ _ log H1).
Qed.

Lemma get_commit_stats_first_request (fuel : nat) (org username : string)
    (year month : Z) (log : list request) :
  period_valid year month = true ->
  exists rest,
    snd (get_commit_stats orgs_repos repos_commits repos_commit (S fuel)
           org username year month log)
    = log ++ ListRepos org 1 :: rest.
Proof.
  intros Hv. rewrite get_commit_stats_valid by exact Hv. unfold bind.
  destruct (get_user_commits_first_request fuel
              org username (start_of_month year month)
              (start_of_next_month year month) log) as [rest Hrest].
  destruct (get_user_commits _ _ _ _ _ _ _ _) as [[[cs|e]|] log1];
    simpl in Hrest; subst log1.
  - rewrite get_commit_stats_loop_run. simpl.
    exists (rest ++ detail_requests org cs).
    now rewrite <- app_assoc.
  - now exists rest.
  - now exists rest.
Qed.

End Log.

(** ** Date ranges and validation *)

(** C2, as stated, fails: against an endpoint whose [until] is inclusive,
    the commit authored exactly at the boundary 2024-03-01T00:00:00 is
    returned by [get_user_commits] for the period that ends at that instant,
    and again for the period that starts there. *)
Lemma boundary_commit_collected_twice :
  commit_date boundary_commit = march_1st
  /\ fst (get_user_commits one_repo inclusive_commits 2 "acme" "alice"
            feb_1st march_1st [])
     = Some (Ok [boundary_commit])
  /\ fst (get_user_commits one_repo inclusive_commits 2 "acme" "alice"
            march_1st april_1st [])
     = Some (Ok [boundary_commit]).
Proof. repeat split; reflexivity. Qed.

(** C2, amended.  [get_user_commits] applies no filter of its own: when the
    enumeration of repositories ends with an empty page and each
    repository's commit listing ends, it returns, given enough fuel, exactly
    the concatenation, in repository order and then page order, of the pages
    the commit-list endpoint returned for [since = start] and
    [until = end].  So a commit is collected for a period exactly when the
    endpoint returns it for that period on one of these pages, and a commit
    authored at the [until] instant is absent whenever the endpoint itself
    never returns such a commit. *)
Theorem get_user_commits_returns_endpoint_pages
    (orgs_repos : string -> Z -> response (list string))
    (repos_commits :
       string -> string -> string -> datetime -> datetime -> Z ->
       response (list commit))
    (fuel : nat) (org username : string) (start_date end_date : datetime)
    (n : nat) (stop : string -> nat) (log : list request) :
  (n < fuel)%nat ->
  listing_ends (orgs_repos org) 1 n ->
  status_code (orgs_repos org (1 + Z.of_nat n)) = 200 ->
  (forall repo, In repo (pages_concat (orgs_repos org) 1 n) ->
     (stop repo < fuel)%nat
     /\ listing_ends (repos_commits org repo username start_date end_date)
          1 (stop repo)) ->
  exists cs log',
    get_user_commits orgs_repos repos_commits fuel org username
      start_date end_date log
    = (Some (Ok cs), log')
    /\ cs = flat_map
              (fun repo =>
                 pages_concat
                   (repos_commits org repo username start_date end_date)
                   1 (stop repo))
              (pages_concat (orgs_repos org) 1 n)
    /\ (forall c,
          In c cs <->
          exists repo i,
            In repo (pages_concat (orgs_repos org) 1 n)
            /\ (i < stop repo)%nat
            /\ In c (json (repos_commits org repo username start_date
                             end_date (1 + Z.of_nat i))))
    /\ ((forall repo page c,
           In c (json (repos_commits org repo username start_date
                         end_date page)) ->
           commit_date c <> end_date) ->
        forall c, In c cs -> commit_date c <> end_date).
Proof.
  intros Hfuel Hrepos Hlast Hstop.
  destruct (get_org_repos_loop_run orgs_repos org n fuel 1 [] log
              Hfuel Hrepos Hlast) as [log1 Hrun1].
  simpl app in Hrun1.
  destruct (get_user_commits_repos_run repos_commits org username
              start_date end_date fuel stop
              (pages_concat (orgs_repos org) 1 n) [] log1 Hstop)
    as [log2 Hrun2].
  simpl app in Hrun2.
  assert (Hin : forall c,
    In c (flat_map
            (fun repo =>
               pages_concat
                 (repos_commits org repo username start_date end_date)
                 1 (stop repo))
            (pages_concat (orgs_repos org) 1 n)) <->
    exists repo i,
      In repo (pages_concat (orgs_repos org) 1 n)
      /\ (i < stop repo)%nat
      /\ In c (json (repos_commits org repo username start_date
                       end_date (1 + Z.of_nat i)))).
  { intros c. rewrite in_flat_map. split.
    - intros (repo & Hr & Hc). unfold pages_concat in Hc at 1.
      apply in_flat_map in Hc. destruct Hc as (i & Hi & Hc).
      apply in_seq in Hi. exists repo, i. repeat split; [exact Hr|lia|exact Hc].
    - intros (repo & i & Hr & Hi & Hc). exists repo. split; [exact Hr|].
      unfold pages_concat at 1. apply in_flat_map. exists i.
      split; [apply in_seq; lia | exact Hc]. }
  eexists. exists log2. split.
  - unfold get_user_commits, get_org_repos, bind. rewrite Hrun1.
    exact Hrun2.
  - split; [reflexivity|]. split; [exact Hin|].
    intros Hexcl c Hc. apply Hin in Hc.
    destruct Hc as (repo & i & _ & _ & Hc). eapply Hexcl, Hc.
Qed.

(** The theorem for March 2024 against the endpoint whose [until] is
    exclusive: the boundary commit is collected in the period it starts. *)
Lemma get_user_commits_returns_endpoint_pages_witness :
  exists cs log',
    get_user_commits one_repo exclusive_commits 2 "acme" "alice"
      march_1st april_1st []
    = (Some (Ok cs), log')
    /\ cs = [boundary_commit].
Proof.
  destruct (get_user_commits_returns_endpoint_pages
              one_repo exclusive_commits 2 "acme" "alice"
              march_1st april_1st 1 (fun _ => 1%nat) [])
    as (cs & log' & Hrun & Hcs & _).
  - lia.
  - split.
    + intros i Hi. assert (i = 0%nat) as -> by lia.
      split; [reflexivity | discriminate].
    + right. reflexivity.
  - reflexivity.
  - intros repo _. split; [lia|]. split.
    + intros i Hi. assert (i = 0%nat) as -> by lia.
      split; [reflexivity | discriminate].
    + right. reflexivity.
  - exists cs, log'. split; [exact Hrun|]. rewrite Hcs. reflexivity.
Defined.

(** C9, as stated, fails: with empty identifiers and a range whose start
    lies after its end, [get_user_commits] raises nothing and issues the
    repository-list requests and a commit-list request. *)
Lemma no_configuration_error :
  to_seconds feb_1st < to_seconds march_1st
  /\ get_user_commits one_repo exclusive_commits 2 "" "" march_1st feb_1st []
     = (Some (Ok []),
        [ListRepos "" 1; ListRepos "" 2;
         ListCommits "" "repoA" "" march_1st feb_1st 1]).
Proof. split; reflexivity. Qed.

(** C9, amended.  The code has no configuration check: for every
    organization, user name, start and end instant (empty identifiers and
    [start >= end] included) [get_user_commits] begins by requesting the
    first page of the organization's repositories.  In [get_commit_stats]
    the only rejections that precede every network call are those of the
    [datetime] constructor: [OverflowError] when the year or the month does
    not fit a C [int], and otherwise [ValueError] when the year is outside
    1..9999, the month outside 1..12, or the month is December 9999; for
    every other year and month its first action is the repository-list
    request. *)
Theorem no_validation_before_network
    (orgs_repos : string -> Z -> response (list string))
    (repos_commits :
       string -> string -> string -> datetime -> datetime -> Z ->
       response (list commit))
    (repos_commit : string -> string -> string -> response (Z * Z))
    (fuel : nat) (org username : string) (log : list request) :
  (forall start_date end_date,
     exists rest,
       snd (get_user_commits orgs_repos repos_commits (S fuel) org username
              start_date end_date log)
       = log ++ ListRepos org 1 :: rest)
  /\ (forall year month,
        ~ (1 <= year <= 9999 /\ 1 <= month <= 12
           /\ (month = 12 -> year < 9999)) ->
        get_commit_stats orgs_repos repos_commits repos_commit fuel org
          username year month log
        = (Some (Raise (if fits_c_int year && fits_c_int month
                        then ValueError else OverflowError)), log))
  /\ (forall year month,
        1 <= year <= 9999 /\ 1 <= month <= 12
        /\ (month = 12 -> year < 9999) ->
        exists rest,
          snd (get_commit_stats orgs_repos repos_commits repos_commit
                 (S fuel) org username year month log)
          = log ++ ListRepos org 1 :: rest).
Proof.
  split; [|split].
  - intros s e. apply get_user_commits_first_request.
  - intros year month Hv. apply get_commit_stats_rejected.
    rewrite <- period_valid_iff in Hv. now apply not_true_is_false.
  - intros year month Hv. apply get_commit_stats_first_request.
    now apply period_valid_iff.
Qed.

(** The theorem at month 13 of 2024, at year 2^31 and at March 2024. *)
Lemma no_validation_before_network_witness :
  get_commit_stats one_repo exclusive_commits not_found 2 "acme" "alice"
    2024 13 []
  = (Some (Raise ValueError), [])
  /\ get_commit_stats one_repo exclusive_commits not_found 2 "acme" "alice"
       2147483648 3 []
     = (Some (Raise OverflowError), [])
  /\ exists rest,
       snd (get_commit_stats one_repo exclusive_commits not_found 3 "acme"
              "alice" 2024 3 [])
       = ListRepos "acme" 1 :: rest.
Proof.
  destruct (no_validation_before_network one_repo exclusive_commits
              not_found 2 "acme" "alice" []) as (_ & Hrej & Hreq).
  split; [|split].
  - apply (Hrej 2024 13). lia.
  - apply (Hrej 2147483648 3). lia.
  - apply (Hreq 2024 3). lia.
Defined.

(** * Further properties *)

(** ** Requests of the paginated loops *)

Lemma page_requests_S (req : Z -> request) (first : Z) (n : nat) :
  page_requests req first (S n)
  = req first :: page_requests req (first + 1) n.
Proof.
  unfold page_requests. rewrite <- cons_seq, <- seq_shift. simpl map.
  rewrite Z.add_0_r. f_equal. rewrite map_map. apply map_ext.
  intros i. f_equal. lia.
Qed.

Section Enumerator.
Variable orgs_repos : string -> Z -> response (list string).
Variable repos_commits :
  string -> string -> string -> datetime -> datetime -> Z ->
  response (list commit).

(** The loop of [get_org_repos] on a listing that ends after [n] pages: one
    request per page up to the ending page, whose status decides between
    returning and raising. *)
Lemma get_org_repos_loop_exact (org : string) (n : nat) :
  forall (fuel : nat) (page : Z) (repos : list string) (log : list request),
    (n < fuel)%nat ->
    listing_ends (orgs_repos org) page n ->
    get_org_repos_loop orgs_repos fuel org page repos log
    = (Some (if status_code (orgs_repos org (page + Z.of_nat n)) =? 200
             then Ok (repos ++ pages_concat (orgs_repos org) page n)
             else Raise (Exception
                           ("Failed to fetch repos: "
                            ++ text (orgs_repos org (page + Z.of_nat n))))),
       log ++ page_requests (ListRepos org) page (S n)).
Proof.
  induction n as [|n IH]; intros fuel page repos log Hfuel Hends;
    (destruct fuel as [|fuel]; [lia|]); simpl;
    unfold bind, get_repos_page.
  - destruct Hends as [_ Hend]. rewrite Z.add_0_r in *.
    unfold pages_concat, page_requests. simpl. rewrite app_nil_r.
    rewrite Z.add_0_r.
    destruct (status_code (orgs_repos org page) =? 200) eqn:Hs; simpl.
    + apply Z.eqb_eq in Hs. destruct Hend as [Hend|Hend]; [lia|].
      rewrite Hend. reflexivity.
    + reflexivity.
  - apply listing_ends_S in Hends. destruct Hends as (H200 & Hne & Hrest).
    apply Z.eqb_eq in H200. rewrite H200. simpl.
    destruct (json (orgs_repos org page)) as [|name data] eqn:Hdata;
      [congruence|].
    rewrite (IH fuel (page + 1) (repos ++ name :: data)
               (log ++ [ListRepos org page])) by (lia || exact Hrest).
    replace (page + 1 + Z.of_nat n) with (page + Z.of_nat (S n)) by lia.
    rewrite (page_requests_S _ page (S n)), (pages_concat_S _ page n), Hdata.
    rewrite <- !app_assoc. reflexivity.
Qed.

(** X1. When the repository listing delivers [n] non-empty pages and then an
    empty one, [get_org_repos] returns the names of these pages in page
    order and has issued exactly the requests for pages 1 to [n + 1], in
    that order. *)
Theorem get_org_repos_returns_all_pages (fuel : nat) (org : string)
    (n : nat) (log : list request) :
  (n < fuel)%nat ->
  listing_ends (orgs_repos org) 1 n ->
  status_code (orgs_repos org (1 + Z.of_nat n)) = 200 ->
  get_org_repos orgs_repos fuel org log
  = (Some (Ok (pages_concat (orgs_repos org) 1 n)),
     log ++ page_requests (ListRepos org) 1 (S n)).
Proof.
  intros Hfuel Hends H200. unfold get_org_repos.
  rewrite (get_org_repos_loop_exact org n) by assumption.
  apply Z.eqb_eq in H200. rewrite H200. reflexivity.
Qed.

(** X2. A failed page is fatal for [get_org_repos], also after pages that
    were fetched: it raises [Exception] with the response text of the
    failed page, and the names collected so far are lost. *)
Theorem get_org_repos_failure_is_fatal (fuel : nat) (org : string)
    (n : nat) (log : list request) :
  (n < fuel)%nat ->
  listing_ends (orgs_repos org) 1 n ->
  status_code (orgs_repos org (1 + Z.of_nat n)) <> 200 ->
  get_org_repos orgs_repos fuel org log
  = (Some (Raise (Exception
                    ("Failed to fetch repos: "
                     ++ text (orgs_repos org (1 + Z.of_nat n))))),
     log ++ page_requests (ListRepos org) 1 (S n)).
Proof.
  intros Hfuel Hends H200. unfold get_org_repos.
  rewrite (get_org_repos_loop_exact org n) by assumption.
  apply Z.eqb_neq in H200. rewrite H200. reflexivity.
Qed.

Lemma get_org_repos_loop_diverges (org : string) (fuel : nat) :
  forall (page : Z) (repos : list string) (log : list request),
    (forall p, page <= p ->
       status_code (orgs_repos org p) = 200
       /\ json (orgs_repos org p) <> []) ->
    get_org_repos_loop orgs_repos fuel org page repos log
    = (None, log ++ page_requests (ListRepos org) page fuel).
Proof.
  induction fuel as [|fuel IH]; intros page repos log Hall; simpl.
  - unfold out_of_fuel, page_requests. simpl. now rewrite app_nil_r.
  - unfold bind, get_repos_page.
    destruct (Hall page (Z.le_refl page)) as [H200 Hne].
    apply Z.eqb_eq in H200. rewrite H200. simpl.
    destruct (json (orgs_repos org page)) as [|name data] eqn:Hdata;
      [congruence|].
    rewrite IH by (intros p Hp; apply Hall; lia).
    rewrite page_requests_S, <- app_assoc. reflexivity.
Qed.

(** X3. [get_org_repos] has no bound on the number of pages: against a
    listing none of whose pages is empty or fails it never returns, and
    after [fuel] iterations it has requested the pages 1 to [fuel]. *)
Theorem get_org_repos_needs_an_empty_page (fuel : nat) (org : string)
    (log : list request) :
  (forall p, 1 <= p ->
     status_code (orgs_repos org p) = 200
     /\ json (orgs_repos org p) <> []) ->
  get_org_repos orgs_repos fuel org log
  = (None, log ++ page_requests (ListRepos org) 1 fuel).
Proof. intros Hall. now apply get_org_repos_loop_diverges. Qed.

(** X4. When the enumeration of repositories fails, [get_user_commits]
    raises the same exception and has issued repository-list requests
    only: no commit-list request is made. *)
Theorem get_user_commits_enumeration_failure (fuel : nat)
    (org username : string) (start_date end_date : datetime) (n : nat)
    (log : list request) :
  (n < fuel)%nat ->
  listing_ends (orgs_repos org) 1 n ->
  status_code (orgs_repos org (1 + Z.of_nat n)) <> 200 ->
  get_user_commits orgs_repos repos_commits fuel org username
    start_date end_date log
  = (Some (Raise (Exception
                    ("Failed to fetch repos: "
                     ++ text (orgs_repos org (1 + Z.of_nat n))))),
     log ++ page_requests (ListRepos org) 1 (S n)).
Proof.
  intros Hfuel Hends H200. unfold get_user_commits, get_org_repos, bind.
  rewrite (get_org_repos_loop_exact org n) by assumption.
  apply Z.eqb_neq in H200. rewrite H200. reflexivity.
Qed.

(** The inner loop of [get_user_commits] with its requests. *)
Lemma get_user_commits_pages_exact (org repo username : string)
    (start_date end_date : datetime) (n : nat) :
  forall (fuel : nat) (page : Z) (all_commits : list commit)
         (log : list request),
    (n < fuel)%nat ->
    listing_ends (repos_commits org repo username start_date end_date)
      page n ->
    get_user_commits_pages repos_commits fuel org repo username
      start_date end_date page all_commits log
    = (Some (Ok (all_commits
                 ++ pages_concat
                      (repos_commits org repo username start_date end_date)
                      page n)),
       log ++ page_requests
                (ListCommits org repo username start_date end_date)
                page (S n)).
Proof.
  induction n as [|n IH]; intros fuel page acc log Hfuel Hends;
    (destruct fuel as [|fuel]; [lia|]); simpl;
    unfold bind, get_commits_page.
  - destruct Hends as [_ Hend]. rewrite Z.add_0_r in Hend.
    unfold pages_concat, page_requests. simpl. rewrite app_nil_r.
    rewrite Z.add_0_r.
    destruct (status_code _ =? 200) eqn:Hs; simpl.
    + apply Z.eqb_eq in Hs. destruct Hend as [Hend|Hend]; [lia|].
      rewrite Hend. reflexivity.
    + reflexivity.
  - apply listing_ends_S in Hends. destruct Hends as (H200 & Hne & Hrest).
    apply Z.eqb_eq in H200. rewrite H200. simpl.
    destruct (json (repos_commits org repo username start_date end_date
                      page)) as [|c data] eqn:Hdata; [congruence|].
    rewrite (IH fuel (page + 1) (acc ++ c :: data)
               (log ++ [ListCommits org repo username start_date end_date
                          page])) by (lia || exact Hrest).
    rewrite (page_requests_S _ page (S n)), (pages_concat_S _ page n), Hdata.
    rewrite <- !app_assoc. reflexivity.
Qed.

(** X5. A commit listing that ends after [n] pages, by an empty page or by
    a failed one, is not fatal: the commits of its [n] pages are kept,
    [n + 1] requests were issued for it, and [get_user_commits] goes on
    with the next repository. *)
Theorem get_user_commits_skips_failed_listing (fuel : nat)
    (org username : string) (start_date end_date : datetime)
    (repo : string) (repos : list string) (n : nat)
    (all_commits : list commit) (log : list request) :
  (n < fuel)%nat ->
  listing_ends (repos_commits org repo username start_date end_date) 1 n ->
  get_user_commits_repos repos_commits fuel org username start_date
    end_date (repo :: repos) all_commits log
  = get_user_commits_repos repos_commits fuel org username start_date
      end_date repos
      (all_commits
       ++ pages_concat
            (repos_commits org repo username start_date end_date) 1 n)
      (log ++ page_requests
                (ListCommits org repo username start_date end_date)
                1 (S n)).
Proof.
  intros Hfuel Hends. simpl. unfold bind.
  now rewrite (get_user_commits_pages_exact org repo username start_date
                 end_date n fuel 1 all_commits log Hfuel Hends).
Qed.
End Enumerator.

(** ** The period of get_commit_stats *)

Lemma days_before_year_succ (y : Z) :
  days_before_year (y + 1) - days_before_year y
  = 365 + (if is_leap y then 1 else 0).
Proof.
  unfold days_before_year, is_leap. cbv zeta.
  replace (y + 1 - 1) with y by lia.
  destruct (y mod 4 =? 0) eqn:H4; destruct (y mod 100 =? 0) eqn:H100;
    destruct (y mod 400 =? 0) eqn:H400; simpl;
    rewrite ?Z.eqb_eq, ?Z.eqb_neq in *;
    Z.div_mod_to_equations; lia.
Qed.

(** The length of the period is the length of the month. *)
Lemma month_period_length (y m : Z) :
  1 <= m <= 12 ->
  to_seconds (start_of_next_month y m) - to_seconds (start_of_month y m)
  = 86400 * days_in_month y m.
Proof.
  intros Hm. unfold start_of_next_month, start_of_month, to_seconds.
  assert (Hcases : m = 1 \/ m = 2 \/ m = 3 \/ m = 4 \/ m = 5 \/ m = 6
                   \/ m = 7 \/ m = 8 \/ m = 9 \/ m = 10 \/ m = 11
                   \/ m = 12) by lia.
  pose proof (days_before_year_succ y) as Hy.
  destruct Hcases as [-> | [-> | [-> | [-> | [-> | [-> | [-> | [-> | [-> |
                     [-> | [-> | ->]]]]]]]]]]];
    cbn [Z.eqb Pos.eqb year month day hour minute second];
    unfold ymd2ord, days_before_month, days_in_month;
    cbn [Z.ltb Z.compare Pos.compare Pos.compare_cont andb Z.add
         Pos.add Pos.succ];
    destruct (is_leap y); simpl; lia.
Qed.

Section Period.
Variable orgs_repos : string -> Z -> response (list string).
Variable repos_commits :
  string -> string -> string -> datetime -> datetime -> Z ->
  response (list commit).
Variable repos_commit : string -> string -> string -> response (Z * Z).

(** X6. For a year and month that the [datetime] constructor accepts,
    [get_commit_stats] collects the commits with [since] the first instant
    of the month and [until] the first instant of the following month
    (January of the next year after December) and aggregates them; the
    period is as long as the month has days, 28 to 31. *)
Theorem get_commit_stats_period (fuel : nat) (org username : string)
    (year month : Z) :
  period_valid year month = true ->
  (forall log,
     get_commit_stats orgs_repos repos_commits repos_commit fuel org
       username year month log
     = bind
         (get_user_commits orgs_repos repos_commits fuel org username
            (start_of_month year month) (start_of_next_month year month))
         (fun commits =>
            get_commit_stats_loop repos_commit org commits initial_stats)
         log)
  /\ to_seconds (start_of_next_month year month)
     - to_seconds (start_of_month year month)
     = 86400 * days_in_month year month
  /\ 28 <= days_in_month year month <= 31.
Proof.
  intros Hv. pose proof Hv as Hr. apply period_valid_iff in Hr.
  split; [|split].
  - intros log. now apply get_commit_stats_valid.
  - apply month_period_length. lia.
  - unfold days_in_month.
    destruct month as [|[[[|[]|]|[[]|[]|]|]|[[[]|[]|]|[[]|[]|]|]|]|];
      try destruct (is_leap year); lia.
Qed.

(** X7. [get_commit_stats] rejects its arguments before any request
    exactly through the [datetime] constructor: it raises [OverflowError]
    without a request exactly when the year or the month is outside the
    range of a C [int], and [ValueError] without a request exactly when both
    fit and the year is outside 1..9999, the month is outside 1..12, or the
    month is December 9999 (whose following month has no [datetime]). *)
Theorem get_commit_stats_rejects_iff (fuel : nat) (org username : string)
    (year month : Z) (log : list request) :
  (get_commit_stats orgs_repos repos_commits repos_commit (S fuel) org
     username year month log
   = (Some (Raise OverflowError), log)
   <-> ~ (-2147483648 <= year <= 2147483647
          /\ -2147483648 <= month <= 2147483647))
  /\ (get_commit_stats orgs_repos repos_commits repos_commit (S fuel) org
        username year month log
      = (Some (Raise ValueError), log)
      <-> (-2147483648 <= year <= 2147483647
           /\ -2147483648 <= month <= 2147483647)
          /\ ~ (1 <= year <= 9999 /\ 1 <= month <= 12
                /\ (month = 12 -> year < 9999))).
Proof.
  rewrite <- period_valid_iff, <- fits_both_iff.
  destruct (period_valid year month) eqn:Hv.
  - assert (Hlog : forall e,
      get_commit_stats orgs_repos repos_commits repos_commit (S fuel) org
        username year month log
      <> (Some (Raise e), log)).
    { intros e Hrun.
      destruct (get_commit_stats_first_request orgs_repos repos_commits
                  repos_commit fuel org username year month log Hv)
        as [rest Hrest].
      rewrite Hrun in Hrest. simpl in Hrest.
      apply (f_equal (@List.length request)) in Hrest.
      rewrite length_app in Hrest. simpl in Hrest. lia. }
    assert (Hfits : fits_c_int year && fits_c_int month = true).
    { apply datetime_valid_fits. unfold period_valid in Hv.
      now apply andb_prop in Hv. }
    split; split.
    + intros Hrun. now apply Hlog in Hrun.
    + intros Hn. now elim Hn.
    + intros Hrun. now apply Hlog in Hrun.
    + intros [_ Hn]. now elim Hn.
  - rewrite (get_commit_stats_rejected orgs_repos repos_commits repos_commit
               (S fuel) org username year month log Hv).
    destruct (fits_c_int year && fits_c_int month); split; split.
    + discriminate.
    + intros Hn. now elim Hn.
    + intros _. split; [reflexivity | discriminate].
    + reflexivity.
    + intros _. discriminate.
    + reflexivity.
    + discriminate.
    + intros [Hf _]. discriminate.
Qed.
End Period.

(** X8. The two periods [main] analyzes are adjacent: the [until] instant of
    the previous month's collection is the [since] instant of the current
    month's, also across the turn of the year. *)
Theorem previous_period_is_adjacent (year month : Z) :
  1 <= month <= 12 ->
  start_of_next_month (fst (previous_month year month))
                      (snd (previous_month year month))
  = start_of_month year month.
Proof.
  intros Hm. unfold previous_month, start_of_next_month, start_of_month.
  destruct (month =? 1) eqn:H1; simpl.
  - apply Z.eqb_eq in H1. subst month. f_equal. lia.
  - apply Z.eqb_neq in H1.
    destruct (month - 1 =? 12) eqn:H12.
    + apply Z.eqb_eq in H12. lia.
    + f_equal. lia.
Qed.

(** ** Bucket dictionaries as maps *)

Lemma day_key_eqb_eq (a b : day_key) : day_key_eqb a b = true <-> a = b.
Proof.
  destruct a as [[y1 m1] d1], b as [[y2 m2] d2]. unfold day_key_eqb.
  rewrite !andb_true_iff, !Z.eqb_eq. split.
  - intros [[-> ->] ->]. reflexivity.
  - intros H. injection H as -> -> ->. auto.
Qed.

Section DictLookup.
Context {K : Type}.
Variable eqb : K -> K -> bool.
Hypothesis eqb_eq : forall a b, eqb a b = true <-> a = b.

Lemma eqb_refl (k : K) : eqb k k = true.
Proof. now apply eqb_eq. Qed.

Lemma eqb_neq (a b : K) : a <> b -> eqb a b = false.
Proof.
  intros Hne. destruct (eqb a b) eqn:He; [|reflexivity].
  apply eqb_eq in He. contradiction.
Qed.

Lemma dict_get_modify_same (k : K) (f : bucket -> bucket)
    (d : dict K bucket) :
  dict_get eqb k (dict_modify eqb empty_bucket k f d)
  = Some (f (bucket_or_empty (dict_get eqb k d))).
Proof.
  induction d as [|[k' v] r IH]; simpl.
  - now rewrite eqb_refl.
  - destruct (eqb k k') eqn:He; simpl; rewrite He; [reflexivity | exact IH].
Qed.

Lemma dict_get_modify_other (k k' : K) (f : bucket -> bucket)
    (d : dict K bucket) :
  k' <> k ->
  dict_get eqb k' (dict_modify eqb empty_bucket k f d) = dict_get eqb k' d.
Proof.
  intros Hne. induction d as [|[k0 v] r IH]; simpl.
  - now rewrite eqb_neq.
  - destruct (eqb k k0) eqn:He; simpl.
    + apply eqb_eq in He. subst k0. now rewrite !eqb_neq.
    + destruct (eqb k' k0); [reflexivity | exact IH].
Qed.

Lemma dict_get_record_same (k : K) (a d : Z) (dd : dict K bucket) :
  dict_get eqb k (record_commit eqb k a d dd)
  = Some (bucket_plus (bucket_or_empty (dict_get eqb k dd)) a d 1).
Proof.
  unfold record_commit. rewrite !dict_get_modify_same. simpl.
  unfold bucket_plus, add_commits, add_deletions, add_additions. simpl.
  reflexivity.
Qed.

Lemma dict_get_record_other (k k' : K) (a d : Z) (dd : dict K bucket) :
  k' <> k ->
  dict_get eqb k' (record_commit eqb k a d dd) = dict_get eqb k' dd.
Proof.
  intros Hne. unfold record_commit.
  now rewrite !dict_get_modify_other.
Qed.

Lemma keys_modify (k : K) (f : bucket -> bucket) (d : dict K bucket) :
  map fst (dict_modify eqb empty_bucket k f d)
  = if existsb (eqb k) (map fst d) then map fst d else map fst d ++ [k].
Proof.
  induction d as [|[k' v] r IH]; simpl; [reflexivity|].
  destruct (eqb k k') eqn:He; simpl; [reflexivity|].
  rewrite IH. now destruct (existsb (eqb k) (map fst r)).
Qed.

Lemma keys_modify_NoDup (k : K) (f : bucket -> bucket) (d : dict K bucket) :
  NoDup (map fst d) ->
  NoDup (map fst (dict_modify eqb empty_bucket k f d)).
Proof.
  intros Hnd. rewrite keys_modify.
  destruct (existsb (eqb k) (map fst d)) eqn:Hex; [exact Hnd|].
  apply NoDup_app; [exact Hnd | constructor; [intros []|constructor] |].
  intros x Hx [Hk|[]]. subst x.
  assert (Ht : existsb (eqb k) (map fst d) = true).
  { apply existsb_exists. exists k. split; [exact Hx | apply eqb_refl]. }
  congruence.
Qed.

Lemma keys_record_NoDup (k : K) (a d : Z) (dd : dict K bucket) :
  NoDup (map fst dd) -> NoDup (map fst (record_commit eqb k a d dd)).
Proof.
  intros Hnd. unfold record_commit. now repeat apply keys_modify_NoDup.
Qed.

Lemma dict_get_In (k : K) (b : bucket) (d : dict K bucket) :
  NoDup (map fst d) -> In (k, b) d -> dict_get eqb k d = Some b.
Proof.
  induction d as [|[k' v] r IH]; simpl; intros Hnd Hin; [contradiction|].
  inversion Hnd as [|? ? Hnotin Hnd']; subst.
  destruct Hin as [Heq|Hin].
  - injection Heq as -> ->. now rewrite eqb_refl.
  - destruct (eqb k k') eqn:He.
    + apply eqb_eq in He. subst k'. exfalso. apply Hnotin.
      apply in_map_iff. now exists (k, b).
    + now apply IH.
Qed.

Lemma dict_get_Some_In (k : K) (b : bucket) (d : dict K bucket) :
  dict_get eqb k d = Some b -> In (k, b) d.
Proof.
  induction d as [|[k' v] r IH]; simpl; [discriminate|].
  destruct (eqb k k') eqn:He.
  - apply eqb_eq in He. subst k'. intros H. injection H as ->. now left.
  - intros H. right. now apply IH.
Qed.

(** The dictionary after recording a list of items [u] under the keys
    [key u]: the bucket of a key sums the items of that key. *)
Lemma dict_get_record_all {U : Type} (key : U -> K) (fa fd : U -> Z)
    (k : K) (us : list U) :
  forall dd,
    dict_get eqb k
      (fold_left (fun dd u => record_commit eqb (key u) (fa u) (fd u) dd)
                 us dd)
    = match filter (fun u => eqb (key u) k) us with
      | [] => dict_get eqb k dd
      | l => Some (bucket_plus (bucket_or_empty (dict_get eqb k dd))
                     (Zsum (map fa l)) (Zsum (map fd l)) (len l))
      end.
Proof.
  induction us as [|u us IH]; intros dd; simpl; [reflexivity|].
  rewrite IH. destruct (eqb (key u) k) eqn:He.
  - apply eqb_eq in He. subst k. rewrite dict_get_record_same.
    destruct (filter (fun u0 => eqb (key u0) (key u)) us) as [|v l];
      simpl; f_equal; unfold bucket_plus, len; simpl;
      f_equal; try lia.
  - assert (Hne : k <> key u).
    { intros ->. rewrite eqb_refl in He. discriminate. }
    now rewrite (dict_get_record_other (key u) k) by exact Hne.
Qed.

Lemma keys_record_all_NoDup {U : Type} (key : U -> K) (fa fd : U -> Z)
    (us : list U) :
  forall dd,
    NoDup (map fst dd) ->
    NoDup (map fst
             (fold_left
                (fun dd u => record_commit eqb (key u) (fa u) (fd u) dd)
                us dd)).
Proof.
  induction us as [|u us IH]; intros dd Hnd; simpl; [exact Hnd|].
  apply IH. now apply keys_record_NoDup.
Qed.
End DictLookup.

Lemma filter_filter_andb {A : Type} (p q : A -> bool) (l : list A) :
  filter q (filter p l) = filter (fun x => p x && q x) l.
Proof.
  induction l as [|x l IH]; simpl; [reflexivity|].
  destruct (p x); simpl; [destruct (q x)|]; now rewrite IH.
Qed.

Section PerKeyBuckets.
Variable repos_commit : string -> string -> string -> response (Z * Z).
Variable org : string.

(** The two dictionaries after the loop: the detailed commits recorded in
    order, under their repository name and under their day. *)
Lemma aggregate_repo_stats (cs : list commit) :
  forall st,
    repo_stats (aggregate repos_commit org cs st)
    = fold_left
        (fun dd c =>
           record_commit String.eqb (repo_name c)
             (commit_additions repos_commit org c)
             (commit_deletions repos_commit org c) dd)
        (filter (detailed repos_commit org) cs) (repo_stats st).
Proof.
  induction cs as [|c cs IH]; intros st; [reflexivity|].
  change (aggregate repos_commit org (c :: cs) st)
    with (aggregate repos_commit org cs
            (process_commit st c (detail repos_commit org c))).
  rewrite IH. simpl filter.
  unfold detailed, process_commit, commit_additions, commit_deletions.
  destruct (status_code (detail repos_commit org c) =? 200);
    [|reflexivity].
  cbn [fold_left].
  destruct (json (detail repos_commit org c)) as [a d]. reflexivity.
Qed.

Lemma aggregate_daily_stats (cs : list commit) :
  forall st,
    daily_stats (aggregate repos_commit org cs st)
    = fold_left
        (fun dd c =>
           record_commit day_key_eqb (strftime_Ymd (commit_date c))
             (commit_additions repos_commit org c)
             (commit_deletions repos_commit org c) dd)
        (filter (detailed repos_commit org) cs) (daily_stats st).
Proof.
  induction cs as [|c cs IH]; intros st; [reflexivity|].
  change (aggregate repos_commit org (c :: cs) st)
    with (aggregate repos_commit org cs
            (process_commit st c (detail repos_commit org c))).
  rewrite IH. simpl filter.
  unfold detailed, process_commit, commit_additions, commit_deletions.
  destruct (status_code (detail repos_commit org c) =? 200);
    [|reflexivity].
  cbn [fold_left].
  destruct (json (detail repos_commit org c)) as [a d]. reflexivity.
Qed.

Lemma aggregate_repo_bucket (cs : list commit) (repo : string) :
  dict_get String.eqb repo
    (repo_stats (aggregate repos_commit org cs initial_stats))
  = bucket_of repos_commit org (repo_commits repos_commit org repo cs).
Proof.
  rewrite aggregate_repo_stats.
  rewrite (dict_get_record_all String.eqb String.eqb_eq).
  rewrite filter_filter_andb. unfold repo_commits, bucket_of.
  destruct (filter _ cs); reflexivity.
Qed.

Lemma aggregate_day_bucket (cs : list commit) (key : day_key) :
  dict_get day_key_eqb key
    (daily_stats (aggregate repos_commit org cs initial_stats))
  = bucket_of repos_commit org (day_commits repos_commit org key cs).
Proof.
  rewrite aggregate_daily_stats.
  rewrite (dict_get_record_all day_key_eqb day_key_eqb_eq).
  rewrite filter_filter_andb. unfold day_commits, bucket_of.
  destruct (filter _ cs); reflexivity.
Qed.

Lemma aggregate_keys_NoDup (cs : list commit) :
  NoDup (map fst (repo_stats (aggregate repos_commit org cs initial_stats)))
  /\ NoDup (map fst
              (daily_stats (aggregate repos_commit org cs initial_stats))).
Proof.
  rewrite aggregate_repo_stats, aggregate_daily_stats. split.
  - apply (keys_record_all_NoDup String.eqb String.eqb_eq). constructor.
  - apply (keys_record_all_NoDup day_key_eqb day_key_eqb_eq). constructor.
Qed.

(** X9. After the loop of [get_commit_stats], the bucket of a repository
    holds the sums of the additions and of the deletions of the successfully
    detailed commits of that repository, and their number; a repository
    without such a commit has no bucket. *)
Theorem repo_bucket_sums_its_commits (cs : list commit)
    (log : list request) :
  exists st log',
    get_commit_stats_loop repos_commit org cs initial_stats log
    = (Some (Ok st), log')
    /\ forall repo,
         dict_get String.eqb repo (repo_stats st)
         = bucket_of repos_commit org
             (repo_commits repos_commit org repo cs).
Proof.
  eexists. eexists. split; [apply get_commit_stats_loop_run|].
  intros repo. apply aggregate_repo_bucket.
Qed.

(** X10. After the loop of [get_commit_stats], the bucket of a day holds the
    sums of the additions and of the deletions of the successfully detailed
    commits authored on that day, and their number; a day without such a
    commit has no bucket. *)
Theorem day_bucket_sums_its_commits (cs : list commit)
    (log : list request) :
  exists st log',
    get_commit_stats_loop repos_commit org cs initial_stats log
    = (Some (Ok st), log')
    /\ forall key,
         dict_get day_key_eqb key (daily_stats st)
         = bucket_of repos_commit org
             (day_commits repos_commit org key cs).
Proof.
  eexists. eexists. split; [apply get_commit_stats_loop_run|].
  intros key. apply aggregate_day_bucket.
Qed.

Lemma bucket_of_Some (l : list commit) (b : bucket) :
  bucket_of repos_commit org l = Some b -> 1 <= commits b /\ l <> [].
Proof.
  destruct l as [|c l]; simpl; [discriminate|].
  intros H. injection H as <-. simpl. split; [|discriminate].
  unfold len. simpl List.length. lia.
Qed.

(** X11. The keys of either dictionary are pairwise distinct, and a
    repository (a day) is a key exactly when one of its commits was
    successfully detailed. *)
Theorem bucket_keys_are_the_detailed_ones (cs : list commit)
    (log : list request) :
  exists st log',
    get_commit_stats_loop repos_commit org cs initial_stats log
    = (Some (Ok st), log')
    /\ NoDup (map fst (repo_stats st))
    /\ NoDup (map fst (daily_stats st))
    /\ (forall repo,
          In repo (map fst (repo_stats st))
          <-> repo_commits repos_commit org repo cs <> [])
    /\ (forall key,
          In key (map fst (daily_stats st))
          <-> day_commits repos_commit org key cs <> []).
Proof.
  eexists. eexists. split; [apply get_commit_stats_loop_run|].
  destruct (aggregate_keys_NoDup cs) as [Hr Hd].
  split; [exact Hr|]. split; [exact Hd|]. split.
  - intros repo. split.
    + intros Hin. apply in_map_iff in Hin. destruct Hin as ([k b] & <- & Hin).
      apply (dict_get_In String.eqb String.eqb_eq _ _ _ Hr) in Hin.
      simpl in Hin. rewrite aggregate_repo_bucket in Hin.
      now apply bucket_of_Some in Hin.
    + intros Hne.
      destruct (bucket_of repos_commit org
                  (repo_commits repos_commit org repo cs)) as [b|] eqn:Hb.
      * rewrite <- aggregate_repo_bucket in Hb.
        apply (dict_get_Some_In String.eqb String.eqb_eq) in Hb.
        apply in_map_iff. now exists (repo, b).
      * unfold bucket_of in Hb.
        destruct (repo_commits repos_commit org repo cs);
          [contradiction | discriminate].
  - intros key. split.
    + intros Hin. apply in_map_iff in Hin. destruct Hin as ([k b] & <- & Hin).
      apply (dict_get_In day_key_eqb day_key_eqb_eq _ _ _ Hd) in Hin.
      simpl in Hin. rewrite aggregate_day_bucket in Hin.
      now apply bucket_of_Some in Hin.
    + intros Hne.
      destruct (bucket_of repos_commit org
                  (day_commits repos_commit org key cs)) as [b|] eqn:Hb.
      * rewrite <- aggregate_day_bucket in Hb.
        apply (dict_get_Some_In day_key_eqb day_key_eqb_eq) in Hb.
        apply in_map_iff. now exists (key, b).
      * unfold bucket_of in Hb.
        destruct (day_commits repos_commit org key cs);
          [contradiction | discriminate].
Qed.

(** X12. Buckets are created on the first contribution only: every bucket
    of either dictionary counts at least one commit. *)
Theorem no_bucket_is_empty (cs : list commit) (log : list request) :
  exists st log',
    get_commit_stats_loop repos_commit org cs initial_stats log
    = (Some (Ok st), log')
    /\ Forall (fun kv => 1 <= commits (snd kv)) (repo_stats st)
    /\ Forall (fun kv => 1 <= commits (snd kv)) (daily_stats st).
Proof.
  eexists. eexists. split; [apply get_commit_stats_loop_run|].
  destruct (aggregate_keys_NoDup cs) as [Hr Hd].
  split; apply Forall_forall; intros [k b] Hin; simpl.
  - apply (dict_get_In String.eqb String.eqb_eq _ _ _ Hr) in Hin.
    rewrite aggregate_repo_bucket in Hin.
    now apply bucket_of_Some in Hin.
  - apply (dict_get_In day_key_eqb day_key_eqb_eq _ _ _ Hd) in Hin.
    rewrite aggregate_day_bucket in Hin.
    now apply bucket_of_Some in Hin.
Qed.
End PerKeyBuckets.

(** ** The analyzer on the snapshots of the aggregator *)

Lemma activity_split (d : dict day_key bucket) :
  activity is_weekend d + activity is_weekday d
  = bucket_total additions d + bucket_total deletions d.
Proof.
  unfold activity, bucket_total.
  induction d as [|[k b] d IH]; simpl; [reflexivity|].
  rewrite weekend_or_weekday. destruct (is_weekend k); simpl; lia.
Qed.

Lemma analyze_productivity_Ok_fields (cur prev : stats) (r : report) :
  analyze_productivity cur prev = Ok r ->
  weekend_activity r = activity is_weekend (daily_stats cur)
  /\ weekday_activity r = activity is_weekday (daily_stats cur)
  /\ most_active_repositories r = firstn 5 (sort_desc (repo_activity cur))
  /\ weekend_percentage r
     = (if 0 <? weekend_activity r + weekday_activity r then
          (Z2Qc (weekend_activity r)
           / Z2Qc (weekend_activity r + weekday_activity r) * Z2Qc 100)%Qc
        else Z2Qc 0).
Proof.
  intros Hr. rewrite analyze_productivity_eq in Hr. cbv zeta in Hr.
  destruct ((1 <? len (commit_times cur)) && is_empty (daily_stats cur));
    [discriminate|].
  injection Hr as <-.
  cbn [weekend_activity weekday_activity most_active_repositories
       weekend_percentage].
  rewrite weekend_fold. cbn [fst snd]. rewrite !Z.add_0_l.
  repeat split; reflexivity.
Qed.

Section AnalyzeAggregate.
Variable repos_commit : string -> string -> string -> response (Z * Z).
Variable org : string.

Lemma aggregate_no_detail (cs : list commit) :
  existsb (detailed repos_commit org) cs = false ->
  daily_stats (aggregate repos_commit org cs initial_stats) = [].
Proof.
  intros Hex. rewrite aggregate_daily_stats.
  assert (Hnil : filter (detailed repos_commit org) cs = []).
  { induction cs as [|c cs IH]; [reflexivity|]. simpl in *.
    apply orb_false_iff in Hex. destruct Hex as [Hc Hcs].
    rewrite Hc. now apply IH. }
  rewrite Hnil. reflexivity.
Qed.

Lemma aggregate_some_detail (cs : list commit) :
  existsb (detailed repos_commit org) cs = true ->
  daily_stats (aggregate repos_commit org cs initial_stats) <> [].
Proof.
  intros Hex Hnil. apply existsb_exists in Hex.
  destruct Hex as (c & Hin & Hc).
  pose proof (aggregate_day_bucket repos_commit org cs
                (strftime_Ymd (commit_date c))) as Hb.
  rewrite Hnil in Hb. simpl in Hb. unfold bucket_of in Hb.
  destruct (day_commits repos_commit org (strftime_Ymd (commit_date c)) cs)
    as [|c' l] eqn:Hd; [|discriminate].
  assert (Hmem : In c (day_commits repos_commit org
                         (strftime_Ymd (commit_date c)) cs)).
  { unfold day_commits. apply filter_In. split; [exact Hin|].
    rewrite Hc. cbn [andb]. now apply day_key_eqb_eq. }
  rewrite Hd in Hmem. contradiction.
Qed.

(** X13. On the snapshot that the loop of [get_commit_stats] returns,
    [analyze_productivity] raises [ZeroDivisionError] exactly when two or
    more commits were collected and the detail lookup succeeded for none of
    them; in every other case it returns a report. *)
Theorem analyze_after_aggregation (cs : list commit) (prev : stats)
    (log : list request) :
  exists st log',
    get_commit_stats_loop repos_commit org cs initial_stats log
    = (Some (Ok st), log')
    /\ (analyze_productivity st prev = Raise ZeroDivisionError
        <-> 2 <= len cs /\ existsb (detailed repos_commit org) cs = false)
    /\ ((exists r, analyze_productivity st prev = Ok r)
        <-> len cs <= 1 \/ existsb (detailed repos_commit org) cs = true).
Proof.
  eexists. eexists. split; [apply get_commit_stats_loop_run|].
  assert (Hlen : len (commit_times
                        (aggregate repos_commit org cs initial_stats))
                 = len cs).
  { rewrite aggregate_commit_times. simpl. unfold len.
    now rewrite length_map. }
  destruct (existsb (detailed repos_commit org) cs) eqn:Hex.
  - pose proof (aggregate_some_detail cs Hex) as Hne.
    destruct (analyze_productivity_returns
                (aggregate repos_commit org cs initial_stats) prev
                (or_intror Hne)) as [r Hr].
    split; split.
    + rewrite Hr. discriminate.
    + intros [_ H]. discriminate.
    + intros _. now right.
    + intros _. now exists r.
  - pose proof (aggregate_no_detail cs Hex) as Hnil.
    destruct (Z.le_gt_cases (len cs) 1) as [Hle|Hgt].
    + destruct (analyze_productivity_returns
                  (aggregate repos_commit org cs initial_stats) prev)
        as [r Hr]; [left; lia|].
      split; split.
      * rewrite Hr. discriminate.
      * intros [H _]. lia.
      * intros _. now left.
      * intros _. now exists r.
    + assert (Hraise :
        analyze_productivity
          (aggregate repos_commit org cs initial_stats) prev
        = Raise ZeroDivisionError)
        by (apply analyze_productivity_raises; [lia | exact Hnil]).
      split; split.
      * intros _. split; [lia | reflexivity].
      * intros _. exact Hraise.
      * intros [r Hr]. rewrite Hraise in Hr. discriminate.
      * intros [H|H]; [lia | discriminate].
Qed.

(** X14. When at least one detail lookup succeeds, the report on the
    aggregated snapshot splits the grand totals: weekend activity plus
    weekday activity is total additions plus total deletions. *)
Theorem weekend_and_weekday_make_the_total (cs : list commit)
    (prev : stats) (log : list request) :
  existsb (detailed repos_commit org) cs = true ->
  exists st log' r,
    get_commit_stats_loop repos_commit org cs initial_stats log
    = (Some (Ok st), log')
    /\ analyze_productivity st prev = Ok r
    /\ weekend_activity r + weekday_activity r
       = total_additions st + total_deletions st.
Proof.
  intros Hex.
  destruct (analyze_productivity_returns
              (aggregate repos_commit org cs initial_stats) prev
              (or_intror (aggregate_some_detail cs Hex))) as [r Hr].
  eexists. eexists. exists r.
  split; [apply get_commit_stats_loop_run|]. split; [exact Hr|].
  destruct (analyze_productivity_Ok_fields _ _ _ Hr) as (Hwe & Hwd & _).
  rewrite Hwe, Hwd, activity_split.
  pose proof (aggregate_totals repos_commit org cs initial_stats) as Ht.
  cbn zeta in Ht.
  change (bucket_total additions (daily_stats initial_stats)) with 0 in Ht.
  change (bucket_total deletions (daily_stats initial_stats)) with 0 in Ht.
  change (total_additions initial_stats) with 0 in Ht.
  change (total_deletions initial_stats) with 0 in Ht.
  destruct Ht as (T1 & T2 & _ & _ & _ & T6 & T7 & _). lia.
Qed.
End AnalyzeAggregate.

(** ** More on the report *)

Lemma commit_intervals_cons (a b : datetime) (r : list datetime) :
  commit_intervals (a :: b :: r)
  = total_seconds_between b a :: commit_intervals (b :: r).
Proof.
  unfold commit_intervals. cbn [List.length Nat.sub].
  rewrite Nat.sub_0_r. rewrite <- cons_seq. cbn [map nth Nat.sub].
  f_equal. rewrite <- seq_shift, map_map. apply map_ext_in.
  intros i Hi. apply in_seq in Hi.
  destruct i as [|i]; [lia|]. cbn [Nat.sub nth].
  rewrite Nat.sub_0_r. reflexivity.
Qed.

Lemma last_cons_default {A : Type} (r : list A) :
  forall b t, last (b :: r) t = last r b.
Proof.
  induction r as [|c r IH]; intros b t; [reflexivity|].
  change (last (b :: c :: r) t) with (last (c :: r) t).
  now rewrite (IH c t), (IH c b).
Qed.

(** The consecutive differences telescope. *)
Lemma commit_intervals_sum (t : datetime) (ts : list datetime) :
  Zsum (commit_intervals (t :: ts)) = to_seconds (last ts t) - to_seconds t.
Proof.
  revert t. induction ts as [|b r IH]; intros t.
  - simpl. lia.
  - rewrite commit_intervals_cons. cbn [Zsum fold_right].
    change (fold_right Z.add 0 (commit_intervals (b :: r)))
      with (Zsum (commit_intervals (b :: r))).
    rewrite IH. unfold total_seconds_between.
    rewrite last_cons_default. lia.
Qed.

(** X15. The average commit interval sees only the first and the last
    timestamp of the sequence: for two or more timestamps and at least one
    day bucket it is the time from the first to the last one, in collection
    order, divided by the number of intervals, in minutes. *)
Theorem average_interval_telescopes (cur prev : stats) (t : datetime)
    (ts : list datetime) :
  commit_times cur = t :: ts ->
  ts <> [] ->
  daily_stats cur <> [] ->
  exists r,
    analyze_productivity cur prev = Ok r
    /\ average_commit_interval_minutes r
       = (Z2Qc (to_seconds (last ts t) - to_seconds t) / Z2Qc (len ts)
          / Z2Qc 60)%Qc.
Proof.
  intros Hts Hne Hd. rewrite analyze_productivity_eq. cbv zeta.
  assert (Hlen : (1 <? len (commit_times cur)) = true).
  { apply Z.ltb_lt. rewrite Hts. unfold len. simpl List.length.
    destruct ts; [contradiction | simpl; lia]. }
  assert (He : is_empty (daily_stats cur) = false)
    by (destruct (daily_stats cur); [contradiction | reflexivity]).
  rewrite Hlen, He. cbn [andb]. eexists. split; [reflexivity|].
  cbn [average_commit_interval_minutes]. rewrite Hts.
  rewrite commit_intervals_sum. unfold len.
  rewrite commit_intervals_length. simpl List.length.
  do 3 f_equal. lia.
Qed.

(** X16. Of the previous snapshot, [analyze_productivity] uses the two
    totals and the number of day buckets, nothing else: two previous
    snapshots that agree on these give the same result. *)
Theorem analyze_reads_previous_totals_only (cur prev prev' : stats) :
  total_additions prev = total_additions prev' ->
  total_deletions prev = total_deletions prev' ->
  len (daily_stats prev) = len (daily_stats prev') ->
  analyze_productivity cur prev = analyze_productivity cur prev'.
Proof.
  intros Ha Hd Hl. rewrite !analyze_productivity_eq.
  assert (Ht : total_changes prev = total_changes prev')
    by (unfold total_changes; congruence).
  assert (Hav : daily_average prev = daily_average prev').
  { unfold daily_average. rewrite Ht, Hl.
    destruct (daily_stats prev), (daily_stats prev'); unfold len in Hl;
      simpl in Hl; try lia; reflexivity. }
  now rewrite Ht, Ha, Hd, Hav.
Qed.

Lemma firstn_head {A : Type} (n : nat) (l : list A) :
  head (firstn (S n) l) = head l.
Proof. destruct l; reflexivity. Qed.

(** X17. [most_active_repositories] has five entries, or as many as there
    are repository buckets when these are fewer; each entry is the pair of
    a repository bucket, and the first entry has the largest total of all
    repositories. *)
Theorem most_active_top_entries (cur prev : stats) :
  cadence_defined cur ->
  exists r,
    analyze_productivity cur prev = Ok r
    /\ len (most_active_repositories r) = Z.min 5 (len (repo_stats cur))
    /\ incl (most_active_repositories r) (repo_activity cur)
    /\ (forall x, head (most_active_repositories r) = Some x ->
        forall y, In y (repo_activity cur) -> snd y <= snd x).
Proof.
  intros Hc. destruct (analyze_productivity_returns cur prev Hc) as [r Hr].
  exists r. split; [exact Hr|].
  destruct (analyze_productivity_Ok_fields _ _ _ Hr) as (_ & _ & Hm & _).
  rewrite Hm.
  pose proof (sort_desc_perm (repo_activity cur)) as Hperm.
  pose proof (sort_desc_sorted (repo_activity cur)) as Hsorted.
  split; [|split].
  - unfold len. rewrite length_firstn, (Permutation_length Hperm).
    unfold repo_activity. rewrite length_map. lia.
  - intros x Hx. apply (Permutation_in _ Hperm).
    rewrite <- (firstn_skipn 5). apply in_or_app. now left.
  - intros x Hx y Hy. rewrite firstn_head in Hx.
    apply (Permutation_in _ (Permutation_sym Hperm)) in Hy.
    destruct (sort_desc (repo_activity cur)) as [|z l]; [discriminate|].
    simpl in Hx. injection Hx as ->.
    inversion Hsorted as [|? ? _ Hall]; subst.
    destruct Hy as [<-|Hy]; [lia|].
    rewrite Forall_forall in Hall. exact (Hall y Hy).
Qed.

(** ** What main prints *)

Lemma Qcpos_mult_iff (a z : Qc) :
  (0 < z)%Qc -> ((0 < a * z)%Qc <-> (0 < a)%Qc).
Proof.
  intros Hz. split.
  - intros Hp. destruct (Qclt_le_dec 0 a) as [Hlt|Hle]; [exact Hlt|].
    exfalso. apply (Qcmult_le_compat_r a 0 z) in Hle;
      [|now apply Qclt_le_weak].
    rewrite Qcmult_0_l in Hle. now apply (Qcle_not_lt _ _ Hle).
  - intros Ha. apply (Qcmult_lt_compat_r 0 a z Hz) in Ha.
    now rewrite Qcmult_0_l in Ha.
Qed.

(** The sign of a percentage is the sign of the difference. *)
Lemma pct_positive_iff (x p : Z) :
  0 < p ->
  Qcltb (Z2Qc 0) (Z2Qc x / Z2Qc p * Z2Qc 100)%Qc = true <-> 0 < x.
Proof.
  intros Hp. rewrite Qcltb_lt, Z2Qc_0.
  assert (Hp' : (0 < Z2Qc p)%Qc)
    by (rewrite <- Z2Qc_0; now apply (proj1 (Z2Qc_lt 0 p))).
  assert (Hh : (0 < Z2Qc 100)%Qc)
    by (rewrite <- Z2Qc_0; apply (proj1 (Z2Qc_lt 0 100)); lia).
  assert (Hne : Z2Qc p <> 0%Qc).
  { intros H0. rewrite H0 in Hp'. now apply Qclt_not_eq in Hp'. }
  rewrite <- (Qcpos_mult_iff _ (Z2Qc p) Hp').
  replace (Z2Qc x / Z2Qc p * Z2Qc 100 * Z2Qc p)%Qc
    with (Z2Qc x * Z2Qc 100)%Qc by (field; exact Hne).
  rewrite (Qcpos_mult_iff _ (Z2Qc 100) Hh).
  rewrite <- Z2Qc_0. symmetry. exact (Z2Qc_lt 0 x).
Qed.

Lemma direction_of_pct (c p : Z) :
  direction (if 0 <? p then Num (Z2Qc (c - p) / Z2Qc p * Z2Qc 100)%Qc
             else Inf)
  = "increase"%string
  <-> p <= 0 \/ p < c.
Proof.
  destruct (0 <? p) eqn:Hp.
  - apply Z.ltb_lt in Hp. unfold direction.
    destruct (Qcltb (Z2Qc 0) (Z2Qc (c - p) / Z2Qc p * Z2Qc 100)%Qc) eqn:Hq.
    + apply (pct_positive_iff (c - p) p Hp) in Hq.
      split; [intros _; right; lia | reflexivity].
    + split; [discriminate|]. intros [H|H]; [lia|].
      assert (Ht : Qcltb (Z2Qc 0) (Z2Qc (c - p) / Z2Qc p * Z2Qc 100)%Qc
                   = true) by (apply pct_positive_iff; lia).
      congruence.
  - apply Z.ltb_ge in Hp. simpl. split; [intros _; now left | reflexivity].
Qed.

(** X18. The word [main] prints after the percentage of total changes, of
    additions and of deletions is "increase" exactly when the previous value
    is not positive (no baseline) or the current value is greater than the
    previous one: an unchanged value is reported as "decrease", and
    without a baseline every current value, 0 included, as "increase". *)
Theorem direction_words (cur prev : stats) :
  cadence_defined cur ->
  exists r,
    analyze_productivity cur prev = Ok r
    /\ (direction (total_change_percentage r) = "increase"%string
        <-> total_changes prev <= 0
            \/ total_changes prev < total_changes cur)
    /\ (direction (additions_change_percentage r) = "increase"%string
        <-> total_additions prev <= 0
            \/ total_additions prev < total_additions cur)
    /\ (direction (deletions_change_percentage r) = "increase"%string
        <-> total_deletions prev <= 0
            \/ total_deletions prev < total_deletions cur).
Proof.
  intros Hc. destruct (analyze_productivity_returns cur prev Hc) as [r Hr].
  exists r. split; [exact Hr|].
  rewrite analyze_productivity_eq in Hr. cbv zeta in Hr.
  destruct ((1 <? len (commit_times cur)) && is_empty (daily_stats cur));
    [discriminate|].
  injection Hr as <-.
  cbn [total_change_percentage additions_change_percentage
       deletions_change_percentage].
  repeat split; apply direction_of_pct.
Qed.

(** X19. With no activity at all the report shows 0 for the weekend and,
    as [main] prints 100 minus the weekend percentage for the weekdays, 100
    for the weekdays. *)
Theorem printed_weekday_share (cur prev : stats) :
  cadence_defined cur ->
  exists r,
    analyze_productivity cur prev = Ok r
    /\ (weekend_activity r + weekday_activity r <= 0 ->
        weekend_percentage r = 0%Qc /\ weekday_share r = Z2Qc 100).
Proof.
  intros Hc. destruct (analyze_productivity_returns cur prev Hc) as [r Hr].
  exists r. split; [exact Hr|].
  destruct (analyze_productivity_Ok_fields _ _ _ Hr) as (_ & _ & _ & Hp).
  unfold weekday_share. rewrite Hp.
  intros Hle. apply Z.ltb_ge in Hle. rewrite Hle.
  split; [apply Z2Qc_0|]. rewrite Z2Qc_0. ring.
Qed.

Section MainProperties.
Variable orgs_repos : string -> Z -> response (list string).
Variable repos_commits :
  string -> string -> string -> datetime -> datetime -> Z ->
  response (list commit).
Variable repos_commit : string -> string -> string -> response (Z * Z).

(** X21. A run that cannot enumerate the repositories prints no report:
    with a token and a valid month, when the repository listing fails after
    [n] pages, [main] prints the error of [get_org_repos] and has issued the
    [n + 1] repository-list requests only, no commit-list request and
    nothing for the previous month. *)
Theorem main_without_repositories (fuel : nat) (t : string)
    (org username : string) (year month : Z) (n : nat)
    (log : list request) :
  t <> EmptyString ->
  period_valid year month = true ->
  (n < fuel)%nat ->
  listing_ends (orgs_repos org) 1 n ->
  status_code (orgs_repos org (1 + Z.of_nat n)) <> 200 ->
  main orgs_repos repos_commits repos_commit fuel (Some t) org username
    year month log
  = (Some (Ok (ErrorPrinted
                 (Exception
                    ("Failed to fetch repos: "
                     ++ text (orgs_repos org (1 + Z.of_nat n)))))),
     log ++ page_requests (ListRepos org) 1 (S n)).
Proof.
  intros Ht Hv Hfuel Hends H200. unfold main.
  destruct (String.eqb t EmptyString) eqn:He;
    [apply String.eqb_eq in He; contradiction|].
  unfold try_except. unfold bind at 1.
  rewrite (get_commit_stats_valid orgs_repos repos_commits repos_commit
             fuel org username year month log Hv).
  unfold bind at 1. unfold get_user_commits, get_org_repos, bind.
  rewrite (get_org_repos_loop_exact orgs_repos org n) by assumption.
  apply Z.eqb_neq in H200. rewrite H200. reflexivity.
Qed.
End MainProperties.

(** ** The further theorems at sample inputs *)

Lemma one_repo_listing : listing_ends (one_repo "acme") 1 1.
Proof.
  split.
  - intros i Hi. assert (i = 0%nat) as -> by lia.
    split; [reflexivity | discriminate].
  - right. reflexivity.
Qed.

Lemma failing_repos_listing : listing_ends (failing_repos "acme") 1 1.
Proof.
  split.
  - intros i Hi. assert (i = 0%nat) as -> by lia.
    split; [reflexivity | discriminate].
  - left. discriminate.
Qed.

Lemma march_listing :
  listing_ends
    (exclusive_commits "acme" "repoA" "alice" march_1st april_1st) 1 1.
Proof.
  split.
  - intros i Hi. assert (i = 0%nat) as -> by lia.
    split; [reflexivity | discriminate].
  - right. reflexivity.
Qed.

Lemma get_org_repos_returns_all_pages_witness :
  get_org_repos one_repo 2 "acme" []
  = (Some (Ok ["repoA"%string]), [ListRepos "acme" 1; ListRepos "acme" 2]).
Proof.
  apply (get_org_repos_returns_all_pages one_repo 2 "acme" 1 []).
  - lia.
  - exact one_repo_listing.
  - reflexivity.
Defined.

Lemma get_org_repos_failure_is_fatal_witness :
  get_org_repos failing_repos 2 "acme" []
  = (Some (Raise (Exception "Failed to fetch repos: Server Error")),
     [ListRepos "acme" 1; ListRepos "acme" 2]).
Proof.
  apply (get_org_repos_failure_is_fatal failing_repos 2 "acme" 1 []).
  - lia.
  - exact failing_repos_listing.
  - discriminate.
Defined.

Lemma get_org_repos_needs_an_empty_page_witness :
  get_org_repos endless_repos 3 "acme" []
  = (None, [ListRepos "acme" 1; ListRepos "acme" 2; ListRepos "acme" 3]).
Proof.
  apply (get_org_repos_needs_an_empty_page endless_repos 3 "acme" []).
  intros p Hp. split; [reflexivity | discriminate].
Defined.

Lemma get_user_commits_enumeration_failure_witness :
  get_user_commits failing_repos exclusive_commits 2 "acme" "alice"
    march_1st april_1st []
  = (Some (Raise (Exception "Failed to fetch repos: Server Error")),
     [ListRepos "acme" 1; ListRepos "acme" 2]).
Proof.
  apply (get_user_commits_enumeration_failure failing_repos
           exclusive_commits 2 "acme" "alice" march_1st april_1st 1 []).
  - lia.
  - exact failing_repos_listing.
  - discriminate.
Defined.

Lemma get_user_commits_skips_failed_listing_witness :
  get_user_commits_repos exclusive_commits 2 "acme" "alice" march_1st
    april_1st ["repoA"%string] [] []
  = (Some (Ok [boundary_commit]),
     [ListCommits "acme" "repoA" "alice" march_1st april_1st 1;
      ListCommits "acme" "repoA" "alice" march_1st april_1st 2]).
Proof.
  rewrite (get_user_commits_skips_failed_listing exclusive_commits 2
             "acme" "alice" march_1st april_1st "repoA" [] 1 [] []).
  - reflexivity.
  - lia.
  - exact march_listing.
Defined.

Lemma get_commit_stats_period_witness :
  to_seconds (start_of_next_month 2024 2) - to_seconds (start_of_month 2024 2)
  = 86400 * 29.
Proof.
  destruct (get_commit_stats_period one_repo exclusive_commits found 2
              "acme" "alice" 2024 2) as (_ & Hlen & _).
  - reflexivity.
  - exact Hlen.
Defined.

Lemma previous_period_is_adjacent_witness :
  start_of_next_month 2023 12 = start_of_month 2024 1.
Proof. apply (previous_period_is_adjacent 2024 1). lia. Defined.

Lemma weekend_and_weekday_make_the_total_witness :
  exists st log' r,
    get_commit_stats_loop found "acme" [commit_a1] initial_stats []
    = (Some (Ok st), log')
    /\ analyze_productivity st initial_stats = Ok r
    /\ weekend_activity r + weekday_activity r = 12.
Proof.
  destruct (weekend_and_weekday_make_the_total found "acme" [commit_a1]
              initial_stats []) as (st & log' & r & Hrun & Hr & Hsum).
  - reflexivity.
  - exists st, log', r. split; [exact Hrun|]. split; [exact Hr|].
    rewrite Hsum. injection Hrun as <- _. reflexivity.
Defined.

Lemma average_interval_telescopes_witness :
  exists r,
    analyze_productivity cadence_stats initial_stats = Ok r
    /\ average_commit_interval_minutes r
       = (Z2Qc 180 / Z2Qc 2 / Z2Qc 60)%Qc.
Proof.
  destruct (average_interval_telescopes cadence_stats initial_stats
              march_1st_10h00 [march_1st_10h01; march_1st_10h03])
    as (r & Hr & Havg).
  - reflexivity.
  - discriminate.
  - discriminate.
  - exists r. split; [exact Hr|]. rewrite Havg. reflexivity.
Defined.

Lemma analyze_reads_previous_totals_only_witness :
  analyze_productivity cadence_stats previous_one
  = analyze_productivity cadence_stats previous_two.
Proof.
  apply (analyze_reads_previous_totals_only cadence_stats previous_one
           previous_two); reflexivity.
Defined.

Lemma most_active_top_entries_witness :
  exists r,
    analyze_productivity cadence_stats initial_stats = Ok r
    /\ len (most_active_repositories r) = 1.
Proof.
  destruct (most_active_top_entries cadence_stats initial_stats)
    as (r & Hr & Hlen & _).
  - right. discriminate.
  - exists r. split; [exact Hr|]. rewrite Hlen. reflexivity.
Defined.

Lemma direction_words_witness :
  exists r,
    analyze_productivity cadence_stats cadence_stats = Ok r
    /\ direction (total_change_percentage r) <> "increase"%string.
Proof.
  destruct (direction_words cadence_stats cadence_stats)
    as (r & Hr & Htot & _).
  - right. discriminate.
  - exists r. split; [exact Hr|]. intros Hinc. apply Htot in Hinc.
    unfold total_changes in Hinc. simpl in Hinc. lia.
Defined.

Lemma printed_weekday_share_witness :
  exists r,
    analyze_productivity initial_stats initial_stats = Ok r
    /\ weekend_percentage r = 0%Qc
    /\ weekday_share r = Z2Qc 100.
Proof.
  destruct (printed_weekday_share initial_stats initial_stats)
    as (r & Hr & Hzero).
  - left. unfold len. simpl. lia.
  - exists r. split; [exact Hr|]. apply Hzero.
    rewrite analyze_productivity_eq in Hr. cbv zeta in Hr. simpl in Hr.
    injection Hr as <-. simpl. lia.
Defined.

Lemma main_without_repositories_witness :
  main failing_repos exclusive_commits found 2 (Some "ghp_token"%string)
    "acme" "alice" 2024 3 []
  = (Some (Ok (ErrorPrinted
                 (Exception "Failed to fetch repos: Server Error"))),
     [ListRepos "acme" 1; ListRepos "acme" 2]).
Proof.
  apply (main_without_repositories failing_repos exclusive_commits found
           2 "ghp_token" "acme" "alice" 2024 3 1 []).
  - discriminate.
  - reflexivity.
  - lia.
  - exact failing_repos_listing.
  - discriminate.
Defined.
